(** * radar-backend: a shallow embedding of [main.py] and its schema

    The backend is a FastAPI application over two PostgreSQL tables
    ([conversations] and [messages], created by the initial migration) plus
    three outside services: a text-extraction proxy, an LLM with structured
    output, and the database server itself.

    The embedding follows the source statement by statement.  Handlers are
    written in a state-and-exception monad whose state holds the database; an
    exception never rolls the state back, because [main.py] opens no
    transaction.  Everything the process cannot decide by itself (environment,
    network, LLM, random UUIDs, the server clock, database faults) is read from
    a [World] record, over which the theorems quantify. *)

From Stdlib Require Import String Ascii ZArith NArith List Bool Lia DecimalString.
From Stdlib Require Import Permutation Sorted.
Import ListNotations.

Open Scope string_scope.

(* ================================================================== *)
(** * Python strings *)

Module PyStr.

(** [s.startswith(p)] *)
Fixpoint startswith (p s : string) : bool :=
  match p, s with
  | EmptyString, _ => true
  | String a p', String b s' => Ascii.eqb a b && startswith p' s'
  | String _ _, EmptyString => false
  end.

(** [needle in s] *)
Fixpoint contains (needle s : string) : bool :=
  startswith needle s ||
  match s with
  | EmptyString => false
  | String _ s' => contains needle s'
  end.

(** [s.endswith(suffix)] *)
Fixpoint endswith (suffix s : string) : bool :=
  String.eqb suffix s ||
  match s with
  | EmptyString => false
  | String _ s' => endswith suffix s'
  end.

(** [c.lower()] on one character.  Strings are byte strings here; only
    [A]..[Z] change.  No other code point lowercases to one of the four
    characters of [.mp3], which is all the source asks of [lower]. *)
Definition lower_ascii (c : ascii) : ascii :=
  let n := nat_of_ascii c in
  if (65 <=? n)%nat && (n <=? 90)%nat then ascii_of_nat (n + 32) else c.

(** [s.lower()] *)
Fixpoint lower (s : string) : string :=
  match s with
  | EmptyString => EmptyString
  | String c s' => String (lower_ascii c) (lower s')
  end.

(** [sep.join(l)] *)
Fixpoint join (sep : string) (l : list string) : string :=
  match l with
  | [] => ""
  | [x] => x
  | x :: rest => x ++ sep ++ join sep rest
  end.

(** [bool(s)]: a string is truthy when it is not empty. *)
Definition truthy (s : string) : bool :=
  match s with EmptyString => false | _ => true end.

(** [str(n)] for an integer. *)
Definition of_Z (z : Z) : string := NilZero.string_of_int (Z.to_int z).

Definition newline : string := String (ascii_of_nat 10) EmptyString.

End PyStr.

(* ================================================================== *)
(** * The regular expressions [re.search] is called with

    [main.py] uses one pattern, [(youtube\.com|youtu\.be)]: literals (the
    escaped dot is a literal dot), an alternation and a group. *)

Module Re.

Inductive regex : Type :=
| Lit (s : string)
| Alt (r1 r2 : regex)
| Group (r : regex).

(** Does the pattern match at the start of [s]? *)
Fixpoint match_here (r : regex) (s : string) : bool :=
  match r with
  | Lit l => PyStr.startswith l s
  | Alt r1 r2 => match_here r1 s || match_here r2 s
  | Group r' => match_here r' s
  end.

(** [bool(re.search(r, s))]: a match at some position of [s]. *)
Fixpoint search (r : regex) (s : string) : bool :=
  match_here r s ||
  match s with
  | EmptyString => false
  | String _ s' => search r s'
  end.

End Re.

(* ================================================================== *)
(** * UUIDs *)

(** A [uuid.UUID] is its 128-bit integer. *)
Definition UUID : Type := N.

Module Uuid.

Definition hex_digit (d : N) : ascii :=
  match d with
  | 0 => "0" | 1 => "1" | 2 => "2" | 3 => "3" | 4 => "4" | 5 => "5"
  | 6 => "6" | 7 => "7" | 8 => "8" | 9 => "9" | 10 => "a" | 11 => "b"
  | 12 => "c" | 13 => "d" | 14 => "e" | _ => "f"
  end%N%char.

(** The [width] low hexadecimal digits of [v], most significant first. *)
Fixpoint hex_fixed (width : nat) (v : N) (acc : string) : string :=
  match width with
  | O => acc
  | S k => hex_fixed k (N.shiftr v 4) (String (hex_digit (N.land v 15)) acc)
  end.

(** [str(u)]: 8-4-4-4-12 lowercase hexadecimal digits. *)
Definition str (u : UUID) : string :=
  let h := hex_fixed 32 u "" in
  substring 0 8 h ++ "-" ++ substring 8 4 h ++ "-" ++ substring 12 4 h
    ++ "-" ++ substring 16 4 h ++ "-" ++ substring 20 12 h.

End Uuid.

(* ================================================================== *)
(** * JSON values and Python dicts *)

#[local] Set Warnings "-register-all".

(** What [json.loads] returns and [json.dumps] takes.  An object is kept as
    the list of its members in document order. *)
Inductive json : Type :=
| JNull
| JBool (b : bool)
| JNum (z : Z)
| JStr (s : string)
| JArr (items : list json)
| JObj (members : list (string * json)).

Module PyDict.

(** A [dict] with string keys: an association list in insertion order,
    without repeated keys when built by [set]. *)
Definition t (V : Type) : Type := list (string * V).

(** [d.get(k)] *)
Fixpoint get {V} (k : string) (d : t V) : option V :=
  match d with
  | [] => None
  | (k', v) :: rest => if String.eqb k k' then Some v else get k rest
  end.

(** [d[k] = v]: overwrite in place, or append a new key. *)
Fixpoint set {V} (k : string) (v : V) (d : t V) : t V :=
  match d with
  | [] => [(k, v)]
  | (k', v') :: rest =>
      if String.eqb k k' then (k', v) :: rest else (k', v') :: set k v rest
  end.

(** The dict [json.loads] builds from the members of an object: a repeated
    key keeps its first position and its last value. *)
Definition of_members {V} (members : list (string * V)) : t V :=
  fold_left (fun d kv => set (fst kv) (snd kv) d) members [].

Definition keys {V} (d : t V) : list string := map fst d.

End PyDict.

(* ================================================================== *)
(** * Exceptions and HTTP responses *)

(** A Python exception that is not an [HTTPException]. *)
Record PyError : Type := mkPyError { err_class : string; err_msg : string }.

Inductive Exn : Type :=
| HTTPException (status_code : Z) (detail : string)
| Uncaught (e : PyError).

(** [str(e)].  Starlette prints an [HTTPException] as its status code, a
    colon and its detail. *)
Definition Exn_str (e : Exn) : string :=
  match e with
  | HTTPException code detail => PyStr.of_Z code ++ ": " ++ detail
  | Uncaught e => err_msg e
  end.

Inductive result (A : Type) : Type :=
| Ok (a : A)
| Raise (e : Exn).
Arguments Ok {A} a.
Arguments Raise {A} e.

(* ================================================================== *)
(** * Pydantic models of [main.py] *)

Record AnalyzeRequest : Type := mkAnalyzeRequest {
  url : string;
  initialThought : string
}.

Record ShareRequest : Type := mkShareRequest { conversationId : UUID }.

Record WorldModel : Type := mkWorldModel {
  context : option (PyDict.t string);
  topics : list string;
  questions : list string;
  summary : string
}.

Record AnalysisResponse : Type := mkAnalysisResponse {
  world_model : WorldModel;
  response : string;
  follow_up : string
}.

Record ConversationUpdate : Type := mkConversationUpdate {
  updated_world_model : WorldModel;
  upd_response : string;
  upd_follow_up : string;
  referenced_content : option string
}.

Module WM.

(** Pydantic's [ValidationError].  Its text lists every field that failed,
    and for each the reason and the offending input; here it is cut down to
    the name of the first field that fails.  Only the class of the error and
    the fact that it is raised are relied upon. *)
Definition validation_error (field : string) : PyError :=
  mkPyError "ValidationError" ("1 validation error for WorldModel: " ++ field).

(** A [str] field takes a JSON string and nothing else. *)
Definition as_str (j : json) : option string :=
  match j with JStr s => Some s | _ => None end.

(** [List[str]] *)
Fixpoint as_str_list (items : list json) : option (list string) :=
  match items with
  | [] => Some []
  | j :: rest =>
      match as_str j, as_str_list rest with
      | Some s, Some l => Some (s :: l)
      | _, _ => None
      end
  end.

(** [Dict[str, str]] *)
Fixpoint as_str_dict (d : PyDict.t json) : option (PyDict.t string) :=
  match d with
  | [] => Some []
  | (k, j) :: rest =>
      match as_str j, as_str_dict rest with
      | Some s, Some l => Some ((k, s) :: l)
      | _, _ => None
      end
  end.

(** [context: Optional[Dict[str, str]] = Field(default_factory=dict)] *)
Definition field_context (d : PyDict.t json) : option (option (PyDict.t string)) :=
  match PyDict.get "context" d with
  | None => Some (Some [])
  | Some JNull => Some None
  | Some (JObj members) =>
      option_map Some (as_str_dict (PyDict.of_members members))
  | Some _ => None
  end.

(** [topics] and [questions]: [List[str] = Field(default_factory=list)] *)
Definition field_str_list (name : string) (d : PyDict.t json) : option (list string) :=
  match PyDict.get name d with
  | None => Some []
  | Some (JArr items) => as_str_list items
  | Some _ => None
  end.

(** [summary: str], required. *)
Definition field_summary (d : PyDict.t json) : option string :=
  match PyDict.get "summary" d with
  | Some j => as_str j
  | None => None
  end.

(** Pydantic's validation of the keyword arguments [WorldModel] is built
    from; keys that are not fields are ignored. *)
Definition validate (kwargs : PyDict.t json) : PyError + WorldModel :=
  match field_context kwargs with
  | None => inl (validation_error "context")
  | Some c =>
      match field_str_list "topics" kwargs with
      | None => inl (validation_error "topics")
      | Some t =>
          match field_str_list "questions" kwargs with
          | None => inl (validation_error "questions")
          | Some q =>
              match field_summary kwargs with
              | None => inl (validation_error "summary")
              | Some s => inr (mkWorldModel c t q s)
              end
          end
      end
  end.

(** [WorldModel] built from [json.loads] of the [world_model] column of a
    conversation row, unpacked as keyword arguments.  The column is
    nullable; [json.loads(None)] raises [TypeError], and so does unpacking
    a value that is not a mapping.  The texts of the errors are shortened:
    Python's name the class and, for the second, the type of the value. *)
Definition load (column : option json) : PyError + WorldModel :=
  match column with
  | None =>
      inl (mkPyError "TypeError" "the JSON object must be str, bytes or bytearray, not NoneType")
  | Some (JObj members) => validate (PyDict.of_members members)
  | Some _ =>
      inl (mkPyError "TypeError" "argument after ** must be a mapping")
  end.

(** [wm.dict()], as the document [json.dumps] writes. *)
Definition dict (wm : WorldModel) : json :=
  JObj [ ("context",
           match context wm with
           | None => JNull
           | Some d => JObj (map (fun kv => (fst kv, JStr (snd kv))) d)
           end);
         ("topics", JArr (map JStr (topics wm)));
         ("questions", JArr (map JStr (questions wm)));
         ("summary", JStr (summary wm)) ].

End WM.

(** Member lookup in a document, as [json.loads(doc)[k]] would find it. *)
Definition json_get (k : string) (doc : json) : option json :=
  match doc with
  | JObj members => PyDict.get k (PyDict.of_members members)
  | _ => None
  end.

(** Lookup along a path of keys. *)
Fixpoint json_path (path : list string) (doc : json) : option json :=
  match path with
  | [] => Some doc
  | k :: rest =>
      match json_get k doc with
      | Some sub => json_path rest sub
      | None => None
      end
  end.

(* ================================================================== *)
(** * The schema of [models.py] and of the initial migration *)

Module Conversation.
Record row : Type := mk {
  id : UUID;                      (* primary key *)
  url : string;                   (* not null *)
  media_type : string;            (* not null *)
  user_insight : option string;
  ai_analysis : option string;
  world_model : option json;
  created_at : option Z           (* server default now() *)
}.

Definition set_world_model (doc : option json) (r : row) : row :=
  mk (id r) (url r) (media_type r) (user_insight r) (ai_analysis r) doc
     (created_at r).
End Conversation.

Module Message.
Record row : Type := mk {
  id : UUID;                      (* primary key *)
  conversation_id : option UUID;  (* references conversations.id *)
  role : string;                  (* not null *)
  content : string;               (* not null *)
  timestamp : option Z            (* server default now() *)
}.
End Message.

Module Webhook.
Record row : Type := mk {
  id : UUID;
  url : string;
  secret : string;
  events : list string
}.
End Webhook.

Module Sql.

(** The database.  The migration creates [conversations] and [messages];
    a [webhooks] relation is [None] until something else creates it. *)
Record DB : Type := mkDB {
  conversations : list Conversation.row;
  messages : list Message.row;
  webhooks : option (list Webhook.row)
}.

Definition error (cls msg : string) : PyError := mkPyError cls msg.

Definition has_conversation (cid : UUID) (db : DB) : bool :=
  existsb (fun r => N.eqb (Conversation.id r) cid) (conversations db).

Definition has_message (mid : UUID) (db : DB) : bool :=
  existsb (fun m => N.eqb (Message.id m) mid) (messages db).

(** [SELECT ... FROM conversations WHERE id = $1], read with [fetchrow]:
    the first row, if any. *)
Definition select_conversation (cid : UUID) (db : DB) : option Conversation.row :=
  find (fun r => N.eqb (Conversation.id r) cid) (conversations db).

(** [WHERE conversation_id = $1]; a null reference matches nothing. *)
Definition of_conversation (cid : UUID) (m : Message.row) : bool :=
  match Message.conversation_id m with
  | Some c => N.eqb c cid
  | None => false
  end.

(** [timestamp ASC]: nulls sort last. *)
Definition ts_le (a b : option Z) : bool :=
  match a, b with
  | Some x, Some y => (x <=? y)%Z
  | Some _, None => true
  | None, Some _ => false
  | None, None => true
  end.

Fixpoint insert_by_timestamp (m : Message.row) (sorted : list Message.row)
  : list Message.row :=
  match sorted with
  | [] => [m]
  | x :: rest =>
      if ts_le (Message.timestamp m) (Message.timestamp x)
      then m :: x :: rest
      else x :: insert_by_timestamp m rest
  end.

(** [ORDER BY timestamp ASC].  PostgreSQL leaves the order of rows with
    equal timestamps open; this sort keeps them in table order. *)
Definition order_by_timestamp (rows : list Message.row) : list Message.row :=
  fold_right insert_by_timestamp [] rows.

(** [SELECT ... FROM messages WHERE conversation_id = $1 ORDER BY timestamp ASC] *)
Definition select_messages (cid : UUID) (db : DB) : list Message.row :=
  order_by_timestamp (filter (of_conversation cid) (messages db)).

(** [INSERT INTO conversations (id, url, media_type, user_insight,
    ai_analysis, world_model) VALUES (...)]; [created_at] takes its default. *)
Definition insert_conversation
    (cid : UUID) (u mt insight analysis : string) (wm : json)
    (now : Z) (db : DB) : PyError + DB :=
  if has_conversation cid db then
    inl (error "UniqueViolationError"
               "duplicate key value violates unique constraint conversations_pkey")
  else
    inr (mkDB (conversations db ++
                 [Conversation.mk cid u mt (Some insight) (Some analysis)
                                  (Some wm) (Some now)])%list
              (messages db) (webhooks db)).

(** [INSERT INTO messages (id, conversation_id, role, content) VALUES (...)];
    [timestamp] takes its default. *)
Definition insert_message
    (mid cid : UUID) (role content : string) (now : Z) (db : DB) : PyError + DB :=
  if has_message mid db then
    inl (error "UniqueViolationError"
               "duplicate key value violates unique constraint messages_pkey")
  else if negb (has_conversation cid db) then
    inl (error "ForeignKeyViolationError"
               "insert on table messages violates foreign key constraint")
  else
    inr (mkDB (conversations db)
              (messages db ++ [Message.mk mid (Some cid) role content (Some now)])%list
              (webhooks db)).

(** [UPDATE conversations SET world_model = $1 WHERE id = $2] *)
Definition update_world_model (doc : json) (cid : UUID) (db : DB) : DB :=
  mkDB (map (fun r => if N.eqb (Conversation.id r) cid
                      then Conversation.set_world_model (Some doc) r
                      else r)
            (conversations db))
       (messages db) (webhooks db).

(** [INSERT INTO webhooks (id, url, secret, events) VALUES (...)].  No
    migration and no model declares the relation, so nothing is known of
    its constraints: where it exists the row is appended; an error the
    server may raise for it is one of the faults of [db_fault]. *)
Definition insert_webhook
    (wid : UUID) (u secret : string) (events : list string) (db : DB)
  : PyError + DB :=
  match webhooks db with
  | None => inl (error "UndefinedTableError" "relation webhooks does not exist")
  | Some rows =>
      inr (mkDB (conversations db) (messages db)
                (Some (rows ++ [Webhook.mk wid u secret events])%list))
  end.

(** The statements of [main.py], as they are logged in the trace. *)
Inductive statement : Type :=
| SelectConversation (cid : UUID)
| SelectMessages (cid : UUID)
| InsertConversation (cid : UUID)
| InsertMessage (mid cid : UUID) (role : string)
| UpdateWorldModel (cid : UUID)
| InsertWebhook (wid : UUID).

Definition is_write (s : statement) : bool :=
  match s with
  | SelectConversation _ | SelectMessages _ => false
  | _ => true
  end.

(** Referential integrity of [messages.conversation_id]. *)
Definition fk_ok (db : DB) : bool :=
  forallb (fun m => match Message.conversation_id m with
                    | Some c => has_conversation c db
                    | None => true
                    end)
          (messages db).

End Sql.

(* ================================================================== *)
(** * Prompts sent through [ell] *)

Module Ell.

(** One item of a message body.  [json.dumps(doc, indent=2)] is kept as the
    document it prints. *)
Inductive part : Type :=
| Text (s : string)
| JsonDump (doc : json).

Inductive message : Type :=
| system (s : string)
| user (parts : list part).

End Ell.

(* ================================================================== *)
(** * The outside world *)

Record World : Type := mkWorld {
  (** [os.getenv("DATABASE_URL")] *)
  getenv_DATABASE_URL : option string;
  (** [asyncpg.create_pool(db_url)] and [pool.acquire()]: the error raised, if any *)
  create_pool : string -> option PyError;
  pool_acquire : option PyError;
  (** the n-th statement sent to the server is lost to a fault *)
  db_fault : nat -> option PyError;
  (** [now()] as the server evaluates it for the n-th statement *)
  now : nat -> Z;
  (** the n-th value [uuid4()] draws *)
  uuid4_at : nat -> UUID;
  (** [requests.get(u)] followed by [BeautifulSoup(...).get_text(strip=True)] *)
  requests_get_text : string -> PyError + string;
  (** [urlparse(u).path]; [urlparse] raises [ValueError] on some inputs *)
  urlparse_path : string -> PyError + string;
  (** the two [ell.complex] calls, from prompt to parsed structured output *)
  llm_analyze : list Ell.message -> PyError + AnalysisResponse;
  llm_continue : list Ell.message -> PyError + ConversationUpdate
}.

Inductive Event : Type :=
| EvHttpGet (u : string)
| EvLLM (prompt : list Ell.message)
| EvSql (s : Sql.statement).

(** The state a request runs against.  [trace] is newest first. *)
Record St : Type := mkSt {
  db : Sql.DB;
  uuids_drawn : nat;
  statements_run : nat;
  trace : list Event
}.

(* ================================================================== *)
(** * The monad of request handlers *)

(** A computation returns or raises, and in both cases leaves a state. *)
Definition M (A : Type) : Type := St -> result A * St.

Definition ret {A} (a : A) : M A := fun st => (Ok a, st).

Definition raise_ {A} (e : Exn) : M A := fun st => (Raise e, st).

Definition bind {A B} (m : M A) (k : A -> M B) : M B :=
  fun st =>
    match m st with
    | (Ok a, st') => k a st'
    | (Raise e, st') => (Raise e, st')
    end.

(** [try: m  except Exception as e: h e] *)
Definition try_except {A} (m : M A) (h : Exn -> M A) : M A :=
  fun st =>
    match m st with
    | (Ok a, st') => (Ok a, st')
    | (Raise e, st') => h e st'
    end.

Declare Scope M_scope.
Delimit Scope M_scope with M.
Notation "x <- m ;; k" := (bind m (fun x => k))
  (at level 61, m at next level, right associativity) : M_scope.
Notation "m ;; k" := (bind m (fun _ => k))
  (at level 61, right associativity) : M_scope.

(** A call that raises an ordinary Python exception or returns. *)
Definition lift {A} (r : PyError + A) : M A :=
  fun st =>
    match r with
    | inl e => (Raise (Uncaught e), st)
    | inr a => (Ok a, st)
    end.

Definition emit (e : Event) : M unit :=
  fun st => (Ok tt, mkSt (db st) (uuids_drawn st) (statements_run st) (e :: trace st)).

(** Starlette's phrase for a status code, the default [detail]. *)
Definition http_phrase (code : Z) : string :=
  match code with
  | 404%Z => "Not Found"
  | 500%Z => "Internal Server Error"
  | _ => ""
  end.

(** The call [HTTPException(status_code=code, **kwargs)].  The constructor
    takes [detail] and [headers]; any other keyword is a [TypeError], and it
    is that error which the [raise] statement then propagates. *)
Definition HTTPException_new (code : Z) (kwargs : list (string * string)) : Exn :=
  match filter (fun kv => negb (String.eqb (fst kv) "detail" || String.eqb (fst kv) "headers"))
               kwargs with
  | (k, _) :: _ =>
      Uncaught (mkPyError "TypeError"
        ("HTTPException.__init__() got an unexpected keyword argument '" ++ k ++ "'"))
  | [] =>
      HTTPException code
        match PyDict.get "detail" kwargs with
        | Some d => d
        | None => http_phrase code
        end
  end.

(* ================================================================== *)
(** * [main.py] *)

Definition JINA_READER_URL : string := "https://r.jina.ai/".

Definition youtube_regex : Re.regex :=
  Re.Group (Re.Alt (Re.Lit "youtube.com") (Re.Lit "youtu.be")).

Definition is_youtube_url (u : string) : bool :=
  Re.search youtube_regex u.

Module Media.
(** The dict [process_media] returns. *)
Record t : Type := mk { type : string; content : string }.
End Media.

Module NewMessage.
(** One entry of the [messages] list [add_message] returns. *)
Record t : Type := mk { id : string; role : string; content : string }.
End NewMessage.

Record ShareResponse : Type := mkShareResponse { shareUrl : string }.

Section Handlers.

Variable w : World.

Local Open Scope M_scope.

(** [uuid4()] *)
Definition uuid4 : M UUID :=
  fun st =>
    (Ok (uuid4_at w (uuids_drawn st)),
     mkSt (db st) (S (uuids_drawn st)) (statements_run st) (trace st)).

(** One statement on the connection.  Each runs in its own implicit
    transaction; [run] is its effect on the tables given the server's
    [now()]. *)
Definition statement {A} (s : Sql.statement)
    (run : Z -> Sql.DB -> PyError + (A * Sql.DB)) : M A :=
  fun st =>
    let n := statements_run st in
    let logged := EvSql s :: trace st in
    match db_fault w n with
    | Some e => (Raise (Uncaught e), mkSt (db st) (uuids_drawn st) (S n) logged)
    | None =>
        match run (now w n) (db st) with
        | inl e => (Raise (Uncaught e), mkSt (db st) (uuids_drawn st) (S n) logged)
        | inr (a, db') => (Ok a, mkSt db' (uuids_drawn st) (S n) logged)
        end
    end.

(** [conn.fetchrow] and [conn.fetch] *)
Definition query {A} (s : Sql.statement) (read : Sql.DB -> A) : M A :=
  statement s (fun _ d => inr (read d, d)).

(** [conn.execute] *)
Definition execute (s : Sql.statement) (write : Z -> Sql.DB -> PyError + Sql.DB)
  : M unit :=
  statement s (fun t d => match write t d with
                          | inl e => inl e
                          | inr d' => inr (tt, d')
                          end).

Definition get_db_pool : M unit :=
  match getenv_DATABASE_URL w with
  | None =>
      raise_ (HTTPException_new 500 [("detail", "Database configuration error")])
  | Some db_url =>
      if negb (PyStr.truthy db_url) then
        raise_ (HTTPException_new 500 [("detail", "Database configuration error")])
      else
        match create_pool w db_url with
        | Some e => raise_ (Uncaught e)
        | None => ret tt
        end
  end.

(** [async with pool.acquire() as conn] *)
Definition acquire : M unit :=
  match pool_acquire w with
  | Some e => raise_ (Uncaught e)
  | None => ret tt
  end.

Definition is_podcast_url (u : string) : M bool :=
  path <- lift (urlparse_path w u) ;;
  ret (PyStr.endswith ".mp3" (PyStr.lower path)).

Definition process_webpage (u : string) : M string :=
  try_except
    (emit (EvHttpGet (JINA_READER_URL ++ u)) ;;
     lift (requests_get_text w (JINA_READER_URL ++ u)))
    (fun e =>
       raise_ (HTTPException_new 500
                 [("detail", "Failed to process webpage: " ++ Exn_str e)])).

Definition process_youtube (u : string) : M string :=
  ret ("Placeholder: YouTube video transcript for " ++ u).

Definition process_podcast (u : string) : M string :=
  ret ("Placeholder: Podcast transcript for " ++ u).

Definition process_media (u : string) : M Media.t :=
  if is_youtube_url u then
    content <- process_youtube u ;;
    ret (Media.mk "video" content)
  else
    podcast <- is_podcast_url u ;;
    if podcast then
      content <- process_podcast u ;;
      ret (Media.mk "podcast" content)
    else
      content <- process_webpage u ;;
      ret (Media.mk "webpage" content).

(** The prompt of [analyze_content]. *)
Definition analyze_content_prompt (content initial_thought : string)
  : list Ell.message :=
  [ Ell.system "You are an expert analyst creating a structured analysis from content and user insights.";
    Ell.user
      [ Ell.Text "Content:"; Ell.Text content;
        Ell.Text (PyStr.newline ++ "User's Initial Thought:");
        Ell.Text initial_thought;
        Ell.Text (PyStr.newline ++
          "Create a structured analysis with world model, response, and follow-up question.") ] ].

Definition analyze_content (content initial_thought : string) : M AnalysisResponse :=
  let prompt := analyze_content_prompt content initial_thought in
  emit (EvLLM prompt) ;;
  lift (llm_analyze w prompt).

Definition history_line (m : string * string) : string :=
  fst m ++ ": " ++ snd m.

(** The prompt of [continue_conversation]; [message_history] is a list of
    (role, content). *)
Definition continue_conversation_prompt
    (current_world_model : WorldModel) (message_history : list (string * string))
    (new_content : option string) : list Ell.message :=
  ([ Ell.system "You are an expert analyst continuing a structured conversation.";
     Ell.user
       [ Ell.Text "Current World Model:";
         Ell.JsonDump (WM.dict current_world_model);
         Ell.Text (PyStr.newline ++ "Message History:" ++ PyStr.newline ++
                   PyStr.join PyStr.newline (map history_line message_history)) ] ]
   ++
   match new_content with
   | Some c =>
       if PyStr.truthy c
       then [ Ell.user [ Ell.Text ("New content to analyze:" ++ PyStr.newline ++ c) ] ]
       else []
   | None => []
   end)%list.

Definition continue_conversation
    (current_world_model : WorldModel) (message_history : list (string * string))
    (new_content : option string) : M ConversationUpdate :=
  let prompt :=
    continue_conversation_prompt current_world_model message_history new_content in
  emit (EvLLM prompt) ;;
  lift (llm_continue w prompt).

(** [f"{response}\n\n{follow_up}"] *)
Definition ai_message_of (response follow_up : string) : string :=
  response ++ PyStr.newline ++ PyStr.newline ++ follow_up.

(** [POST /api/analyze] *)
Definition analyze_media (request : AnalyzeRequest) : M string :=
  get_db_pool ;;
  acquire ;;
  try_except
    (processed_content <- process_media (url request) ;;
     analysis_data <- analyze_content (Media.content processed_content)
                                      (initialThought request) ;;
     conversation_id <- uuid4 ;;
     execute (Sql.InsertConversation conversation_id)
       (Sql.insert_conversation conversation_id (url request)
          (Media.type processed_content) (initialThought request)
          (response analysis_data) (WM.dict (world_model analysis_data))) ;;
     user_msg_id <- uuid4 ;;
     execute (Sql.InsertMessage user_msg_id conversation_id "user")
       (Sql.insert_message user_msg_id conversation_id "user"
          (initialThought request)) ;;
     let ai_message :=
       ai_message_of (response analysis_data) (follow_up analysis_data) in
     ai_msg_id <- uuid4 ;;
     execute (Sql.InsertMessage ai_msg_id conversation_id "assistant")
       (Sql.insert_message ai_msg_id conversation_id "assistant" ai_message) ;;
     ret (Uuid.str conversation_id))
    (fun e => raise_ (HTTPException_new 500 [("detail", Exn_str e)])).

(** [GET /api/conversations/{conversation_id}] *)
Definition get_conversation (conversation_id : UUID) : M (list Message.row) :=
  get_db_pool ;;
  acquire ;;
  messages <- query (Sql.SelectMessages conversation_id)
                    (Sql.select_messages conversation_id) ;;
  ret messages.

(** [POST /api/share] *)
Definition share_conversation (request : ShareRequest) : M ShareResponse :=
  get_db_pool ;;
  acquire ;;
  conversation <- query (Sql.SelectConversation (conversationId request))
                        (Sql.select_conversation (conversationId request)) ;;
  match conversation with
  | None =>
      raise_ (HTTPException_new 404 [("message", "Conversation not found")])
  | Some _ =>
      let share_url := "/share/" ++ Uuid.str (conversationId request) in
      ret (mkShareResponse share_url)
  end.

(** [POST /api/webhooks] *)
Definition create_webhook (u : string) (events : list string) (secret : string)
  : M UUID :=
  get_db_pool ;;
  acquire ;;
  webhook_id <- uuid4 ;;
  execute (Sql.InsertWebhook webhook_id)
    (fun _ => Sql.insert_webhook webhook_id u secret events) ;;
  ret webhook_id.

(** [POST /api/conversations/{conversation_id}/messages] *)
Definition add_message (conversation_id : UUID) (message : string)
    (u : option string) : M (list NewMessage.t) :=
  get_db_pool ;;
  acquire ;;
  conversation <- query (Sql.SelectConversation conversation_id)
                        (Sql.select_conversation conversation_id) ;;
  match conversation with
  | None =>
      raise_ (HTTPException_new 404 [("detail", "Conversation not found")])
  | Some conversation =>
      messages <- query (Sql.SelectMessages conversation_id)
                        (Sql.select_messages conversation_id) ;;
      new_content <-
        match u with
        | Some u' =>
            if PyStr.truthy u' then
              processed <- process_media u' ;;
              ret (Some (Media.content processed))
            else ret None
        | None => ret None
        end ;;
      current_world_model <- lift (WM.load (Conversation.world_model conversation)) ;;
      update_data <-
        continue_conversation current_world_model
          (map (fun m => (Message.role m, Message.content m)) messages)
          new_content ;;
      execute (Sql.UpdateWorldModel conversation_id)
        (fun _ d => inr (Sql.update_world_model
                           (WM.dict (updated_world_model update_data))
                           conversation_id d)) ;;
      msg_id <- uuid4 ;;
      execute (Sql.InsertMessage msg_id conversation_id "user")
        (Sql.insert_message msg_id conversation_id "user" message) ;;
      let ai_message :=
        ai_message_of (upd_response update_data) (upd_follow_up update_data) in
      ai_msg_id <- uuid4 ;;
      execute (Sql.InsertMessage ai_msg_id conversation_id "assistant")
        (Sql.insert_message ai_msg_id conversation_id "assistant" ai_message) ;;
      ret [ NewMessage.mk (Uuid.str msg_id) "user" message;
            NewMessage.mk (Uuid.str ai_msg_id) "assistant" ai_message ]
  end.

(** [GET /api/health] *)
Definition health : M string := ret "ok".

End Handlers.

(* ================================================================== *)
(** * The application: routing and exception handlers *)

Inductive Request : Type :=
| POST_analyze (request : AnalyzeRequest)
| GET_conversation (conversation_id : UUID)
| POST_share (request : ShareRequest)
| POST_webhooks (u : string) (events : list string) (secret : string)
| POST_messages (conversation_id : UUID) (message : string) (u : option string)
| GET_health.

(** The JSON bodies the application sends. *)
Inductive Body : Type :=
| ConversationIdBody (s : string)
| MessagesBody (rows : list Message.row)
| ShareBody (r : ShareResponse)
| WebhookBody (wid : UUID)
| NewMessagesBody (msgs : list NewMessage.t)
| StatusBody (s : string)
| DetailBody (detail : string).

Record Response : Type := mkResponse {
  status : Z;
  body : Body;
  headers : list (string * string)
}.

(** FastAPI's handler for [HTTPException]. *)
Definition http_exception_handler (code : Z) (detail : string) : Response :=
  mkResponse code (DetailBody detail) [].

(** [global_exception_handler], registered for [Exception]. *)
Definition global_exception_handler (exc : PyError) : Response :=
  mkResponse 500 (DetailBody (err_msg exc))
    [ ("Access-Control-Allow-Origin", "*");
      ("Access-Control-Allow-Methods", "*");
      ("Access-Control-Allow-Headers", "*") ].

Definition respond (r : result Body) : Response :=
  match r with
  | Ok b => mkResponse 200 b []
  | Raise (HTTPException code detail) => http_exception_handler code detail
  | Raise (Uncaught e) => global_exception_handler e
  end.

Definition fmap {A B} (f : A -> B) (m : M A) : M B :=
  bind m (fun a => ret (f a)).

(** The route table: the handler of a request, with its return value as a
    JSON body. *)
Definition handle (w : World) (req : Request) : M Body :=
  match req with
  | POST_analyze request => fmap ConversationIdBody (analyze_media w request)
  | GET_conversation cid => fmap MessagesBody (get_conversation w cid)
  | POST_share request => fmap ShareBody (share_conversation w request)
  | POST_webhooks u events secret => fmap WebhookBody (create_webhook w u events secret)
  | POST_messages cid message u => fmap NewMessagesBody (add_message w cid message u)
  | GET_health => fmap StatusBody health
  end.

(** One request against the application. *)
Definition app (w : World) (req : Request) (st : St) : Response * St :=
  let (r, st') := handle w req st in (respond r, st').

(** The events a request added to the trace, oldest first. *)
Definition events_since (before after : St) : list Event :=
  rev (firstn (length (trace after) - length (trace before)) (trace after)).

Definition is_http_get (e : Event) : bool :=
  match e with EvHttpGet _ => true | _ => false end.

Definition is_llm (e : Event) : bool :=
  match e with EvLLM _ => true | _ => false end.

Definition is_sql (e : Event) : bool :=
  match e with EvSql _ => true | _ => false end.

Definition is_sql_write (e : Event) : bool :=
  match e with EvSql s => Sql.is_write s | _ => false end.

Definition count (p : Event -> bool) (evs : list Event) : nat :=
  length (filter p evs).

(** Every write in [evs] (oldest first) comes after an LLM call. *)
Fixpoint writes_follow_llm (seen_llm : bool) (evs : list Event) : bool :=
  match evs with
  | [] => true
  | e :: rest =>
      (negb (is_sql_write e) || seen_llm)
      && writes_follow_llm (seen_llm || is_llm e) rest
  end.

(** The database can be reached: the pool is configured, created and lends a
    connection. *)
Definition pool_ok (w : World) : Prop :=
  exists db_url,
    getenv_DATABASE_URL w = Some db_url /\ PyStr.truthy db_url = true /\
    create_pool w db_url = None /\ pool_acquire w = None.

(* ================================================================== *)
(** * A concrete world, for examples *)

Module Demo.

Definition wm0 : WorldModel :=
  mkWorldModel (Some [("radar", "tracks what is new")]) ["radar"] ["what next?"]
               "a first summary".

Definition wm1 : WorldModel :=
  mkWorldModel (Some [("signal", "worth a second look")]) ["signal"] []
               "a second summary".

Definition world : World :=
  mkWorld (Some "postgresql://db/radar") (fun _ => None) None (fun _ => None)
          (fun n => Z.of_nat n) (fun n => N.of_nat (100 + n))
          (fun _ => inr "extracted text")
          (fun u => inr (if PyStr.endswith ".mp3" u then "/a.mp3" else "/post"))
          (fun _ => inr (mkAnalysisResponse wm0 "Interesting." "What next?"))
          (fun _ => inr (mkConversationUpdate wm1 "Indeed." "And then?" None)).

Definition empty : St := mkSt (Sql.mkDB [] [] None) 0 0 [].

Definition request : AnalyzeRequest :=
  mkAnalyzeRequest "https://example.com/post" "my thought".

(** The state after one analysis. *)
Definition analysed : St := snd (analyze_media world request empty).

Definition cid : UUID := 100%N.

(** A conversation whose stored world model lacks the required [summary]. *)
Definition no_summary : json := JObj [("topics", JArr [JStr "radar"])].

Definition broken : St :=
  mkSt (Sql.mkDB
          [Conversation.mk 9%N "https://example.com/post" "webpage"
             (Some "my thought") (Some "Interesting.") (Some no_summary) (Some 0%Z)]
          [] None)
       0 0 [].

(** A world whose LLM is down, and one whose reader service is down. *)
Definition llm_down : World :=
  mkWorld (getenv_DATABASE_URL world) (create_pool world) (pool_acquire world)
          (db_fault world) (now world) (uuid4_at world)
          (requests_get_text world) (urlparse_path world)
          (fun _ => inl (mkPyError "APIConnectionError" "Connection error."))
          (fun _ => inl (mkPyError "APIConnectionError" "Connection error.")).

Definition reader_down : World :=
  mkWorld (getenv_DATABASE_URL world) (create_pool world) (pool_acquire world)
          (db_fault world) (now world) (uuid4_at world)
          (fun _ => inl (mkPyError "ConnectionError" "Max retries exceeded"))
          (urlparse_path world) (llm_analyze world) (llm_continue world).

(** A world that loses the third statement of a request, and one whose
    server clock runs backwards. *)
Definition flaky : World :=
  mkWorld (getenv_DATABASE_URL world) (create_pool world) (pool_acquire world)
          (fun n => if Nat.eqb n 2
                    then Some (mkPyError "ConnectionDoesNotExistError" "connection was closed")
                    else None)
          (now world) (uuid4_at world)
          (requests_get_text world) (urlparse_path world)
          (llm_analyze world) (llm_continue world).

Definition backwards : World :=
  mkWorld (getenv_DATABASE_URL world) (create_pool world) (pool_acquire world)
          (db_fault world) (fun n => (- Z.of_nat n)%Z) (uuid4_at world)
          (requests_get_text world) (urlparse_path world)
          (llm_analyze world) (llm_continue world).

End Demo.

(* ================================================================== *)
(** * Vocabulary of the statements *)

(** The state after events were logged, a statement ran, a UUID was drawn. *)
Definition log (evs : list Event) (st : St) : St :=
  mkSt (db st) (uuids_drawn st) (statements_run st) (evs ++ trace st)%list.

Definition ran (s : Sql.statement) (d : Sql.DB) (st : St) : St :=
  mkSt d (uuids_drawn st) (S (statements_run st)) (EvSql s :: trace st).

Definition drew (st : St) : St :=
  mkSt (db st) (S (uuids_drawn st)) (statements_run st) (trace st).

(** The failures a client sees as a 500 with a detail. *)
Inductive generic_failure : Exn -> Prop :=
| generic_http detail : generic_failure (HTTPException 500 detail)
| generic_uncaught e : generic_failure (Uncaught e).

(** The URL matches the YouTube pattern. *)
Definition mentions_youtube (u : string) : Prop :=
  (exists a b, u = a ++ "youtube.com" ++ b) \/ (exists a b, u = a ++ "youtu.be" ++ b).


(** What [process_media] does, read off the world alone: its result and the
    requests it sends. *)
Definition media_result (w : World) (u : string) : result Media.t * list Event :=
  if is_youtube_url u then
    (Ok (Media.mk "video" ("Placeholder: YouTube video transcript for " ++ u)), [])
  else
    match urlparse_path w u with
    | inl e => (Raise (Uncaught e), [])
    | inr path =>
        if PyStr.endswith ".mp3" (PyStr.lower path) then
          (Ok (Media.mk "podcast" ("Placeholder: Podcast transcript for " ++ u)), [])
        else
          (match requests_get_text w (JINA_READER_URL ++ u) with
           | inr text => Ok (Media.mk "webpage" text)
           | inl e =>
               Raise (HTTPException 500 ("Failed to process webpage: " ++ err_msg e))
           end,
           [EvHttpGet (JINA_READER_URL ++ u)])
    end.

(** The message history [add_message] hands to the LLM. *)
Definition history (cid : UUID) (d : Sql.DB) : list (string * string) :=
  map (fun m => (Message.role m, Message.content m)) (Sql.select_messages cid d).

(** The new content [add_message] hands to the LLM for the optional URL. *)
Definition new_content_ok (w : World) (u : option string) (nc : option string) : Prop :=
  match u with
  | Some u' =>
      if PyStr.truthy u'
      then exists m, fst (media_result w u') = Ok m /\ nc = Some (Media.content m)
      else nc = None
  | None => nc = None
  end.

Definition role_ok (m : Message.row) : Prop :=
  Message.role m = "user" \/ Message.role m = "assistant".

(** The two rows an analysis or a continuation appends. *)
Definition user_row (mid cid : UUID) (content : string) (t : Z) : Message.row :=
  Message.mk mid (Some cid) "user" content (Some t).

Definition assistant_row (mid cid : UUID) (content : string) (t : Z) : Message.row :=
  Message.mk mid (Some cid) "assistant" content (Some t).

(** Nothing, the user row, or the user row followed by the assistant row of
    the same conversation. *)
Definition pair_prefix (newm : list Message.row) : Prop :=
  newm = [] \/
  (exists mid cid content t, newm = [user_row mid cid content t]) \/
  (exists mid1 mid2 cid c1 c2 t1 t2,
     newm = [user_row mid1 cid c1 t1; assistant_row mid2 cid c2 t2]).

(** Two conversation rows that differ at most in [world_model]. *)
Definition same_but_world_model (r r' : Conversation.row) : Prop :=
  Conversation.id r' = Conversation.id r /\
  Conversation.url r' = Conversation.url r /\
  Conversation.media_type r' = Conversation.media_type r /\
  Conversation.user_insight r' = Conversation.user_insight r /\
  Conversation.ai_analysis r' = Conversation.ai_analysis r /\
  Conversation.created_at r' = Conversation.created_at r.

(** What a request may do to the rows: messages are appended, as a prefix of
    a pair; conversations keep their place and all columns but [world_model],
    and new ones are appended. *)
Definition rows_kept (before after : Sql.DB) : Prop :=
  (exists newm,
     Sql.messages after = (Sql.messages before ++ newm)%list /\ pair_prefix newm) /\
  (exists f newc,
     Sql.conversations after = (map f (Sql.conversations before) ++ newc)%list /\
     forall r, same_but_world_model r (f r)).

(** The document stored for a conversation, and its member along a path. *)
Definition stored_world_model (cid : UUID) (d : Sql.DB) : option json :=
  match Sql.select_conversation cid d with
  | Some row => Conversation.world_model row
  | None => None
  end.

Definition stored_at (cid : UUID) (path : list string) (d : Sql.DB) : option json :=
  match stored_world_model cid d with
  | Some doc => json_path path doc
  | None => None
  end.

(** A list of message rows in ascending timestamp order. *)
Definition ts_sorted (l : list Message.row) : Prop :=
  Sorted (fun a b => Sql.ts_le (Message.timestamp a) (Message.timestamp b) = true) l.

(** A property of the tables that a computation keeps, however it ends. *)
Definition keeps (P : Sql.DB -> Prop) {A} (m : M A) : Prop :=
  forall st r st', P (db st) -> m st = (r, st') -> P (db st').

(** Primary keys are unique and every message refers to a conversation that
    exists: what the schema of the migration enforces. *)
Definition schema_ok (d : Sql.DB) : Prop :=
  NoDup (map Conversation.id (Sql.conversations d)) /\
  NoDup (map Message.id (Sql.messages d)) /\
  Sql.fk_ok d = true.

(** The requests a handler sent out: at most one page fetch, one LLM call
    and [sql] statements. *)
Definition sent_at_most (sql : nat) (before after : St) : Prop :=
  exists evs,
    trace after = (evs ++ trace before)%list /\
    (count is_http_get evs <= 1 /\ count is_llm evs <= 1 /\ count is_sql evs <= sql)%nat /\
    events_since before after = rev evs.

(* ================================================================== *)
(** * [migrations/env.py], [models.py] and the initial migration *)

Module PyReplace.

(** [s[n:]] *)
Fixpoint drop (n : nat) (s : string) : string :=
  match n, s with
  | O, _ => s
  | S k, String _ s' => drop k s'
  | S _, EmptyString => EmptyString
  end.

(** [s.replace(old, new, 1)]: the leftmost occurrence of [old] is replaced,
    if there is one. *)
Fixpoint replace1 (old new s : string) : string :=
  if PyStr.startswith old s then new ++ drop (String.length old) s
  else match s with
       | EmptyString => EmptyString
       | String c s' => String c (replace1 old new s')
       end.

End PyReplace.

(** [get_url] of [migrations/env.py]: [os.getenv("DATABASE_URL", "")] with
    the scheme [postgres://] rewritten to [postgresql://]. *)
Definition get_url (w : World) : string :=
  let url := match getenv_DATABASE_URL w with Some u => u | None => "" end in
  if PyStr.startswith "postgres://" url
  then PyReplace.replace1 "postgres://" "postgresql://" url
  else url.

Module Schema.

Inductive sqltype : Type := UUID_t | String_t | DateTime_t | JSON_t.

Record column : Type := mkColumn {
  col_name : string;
  col_type : sqltype;
  nullable : bool;
  server_default : option string
}.

(** A foreign key: the column, and the table and column it refers to. *)
Record foreign_key : Type := mkForeignKey {
  fk_column : string;
  fk_table : string;
  fk_ref : string
}.

Record table : Type := mkTable {
  tbl_name : string;
  columns : list column;
  primary_key : list string;
  foreign_keys : list foreign_key
}.

(** The tables of a database, in the order they were created. *)
Definition catalog : Type := list table.

Definition has_table (name : string) (c : catalog) : bool :=
  existsb (fun t => String.eqb (tbl_name t) name) c.

(** Some table of the catalog has a foreign key into [name]. *)
Definition referenced (name : string) (c : catalog) : bool :=
  existsb (fun t => existsb (fun fk => String.eqb (fk_table fk) name) (foreign_keys t)) c.

(** [op.create_table]: the name must be free and every foreign key must
    point to a table that exists (or to the new table itself). *)
Definition create_table (t : table) (c : catalog) : PyError + catalog :=
  if has_table (tbl_name t) c then
    inl (mkPyError "DuplicateTable" ("relation " ++ tbl_name t ++ " already exists"))
  else if forallb (fun fk => has_table (fk_table fk) c
                             || String.eqb (fk_table fk) (tbl_name t))
                  (foreign_keys t) then
    inr (c ++ [t])%list
  else
    inl (mkPyError "UndefinedTable" "referenced relation does not exist").

(** [op.drop_table]: the table must exist and no other table may refer to it. *)
Definition drop_table (name : string) (c : catalog) : PyError + catalog :=
  if negb (has_table name c) then
    inl (mkPyError "UndefinedTable" ("table " ++ name ++ " does not exist"))
  else
    let others := filter (fun t => negb (String.eqb (tbl_name t) name)) c in
    if referenced name others then
      inl (mkPyError "DependentObjectsStillExist"
                     ("cannot drop table " ++ name ++ " because other objects depend on it"))
    else inr others.

(** Every foreign key of the catalog points to one of its tables. *)
Definition closed (c : catalog) : bool :=
  forallb (fun t => forallb (fun fk => has_table (fk_table fk) c) (foreign_keys t)) c.

End Schema.

(** The tables [models.py] declares on [Base.metadata]. *)
Module Models.

Definition Conversation : Schema.table :=
  Schema.mkTable "conversations"
    [ Schema.mkColumn "id" Schema.UUID_t false None;
      Schema.mkColumn "url" Schema.String_t false None;
      Schema.mkColumn "media_type" Schema.String_t false None;
      Schema.mkColumn "user_insight" Schema.String_t true None;
      Schema.mkColumn "ai_analysis" Schema.String_t true None;
      Schema.mkColumn "world_model" Schema.JSON_t true None;
      Schema.mkColumn "created_at" Schema.DateTime_t true (Some "now()") ]
    ["id"] [].

Definition Message : Schema.table :=
  Schema.mkTable "messages"
    [ Schema.mkColumn "id" Schema.UUID_t false None;
      Schema.mkColumn "conversation_id" Schema.UUID_t true None;
      Schema.mkColumn "role" Schema.String_t false None;
      Schema.mkColumn "content" Schema.String_t false None;
      Schema.mkColumn "timestamp" Schema.DateTime_t true (Some "now()") ]
    ["id"] [Schema.mkForeignKey "conversation_id" "conversations" "id"].

Definition metadata : Schema.catalog := [Conversation; Message].

End Models.

(** [migrations/versions/96711f2aedfe_initial.py].  Alembic runs a migration
    inside one transaction, so a step that raises leaves no catalog behind. *)
Module Migration.

Definition conversations : Schema.table :=
  Schema.mkTable "conversations"
    [ Schema.mkColumn "id" Schema.UUID_t false None;
      Schema.mkColumn "url" Schema.String_t false None;
      Schema.mkColumn "media_type" Schema.String_t false None;
      Schema.mkColumn "user_insight" Schema.String_t true None;
      Schema.mkColumn "ai_analysis" Schema.String_t true None;
      Schema.mkColumn "world_model" Schema.JSON_t true None;
      Schema.mkColumn "created_at" Schema.DateTime_t true (Some "now()") ]
    ["id"] [].

Definition messages : Schema.table :=
  Schema.mkTable "messages"
    [ Schema.mkColumn "id" Schema.UUID_t false None;
      Schema.mkColumn "conversation_id" Schema.UUID_t true None;
      Schema.mkColumn "role" Schema.String_t false None;
      Schema.mkColumn "content" Schema.String_t false None;
      Schema.mkColumn "timestamp" Schema.DateTime_t true (Some "now()") ]
    ["id"] [Schema.mkForeignKey "conversation_id" "conversations" "id"].

Definition upgrade (c : Schema.catalog) : PyError + Schema.catalog :=
  match Schema.create_table conversations c with
  | inl e => inl e
  | inr c1 => Schema.create_table messages c1
  end.

Definition downgrade (c : Schema.catalog) : PyError + Schema.catalog :=
  match Schema.drop_table "messages" c with
  | inl e => inl e
  | inr c1 => Schema.drop_table "conversations" c1
  end.

End Migration.

(* ================================================================== *)
(** * More vocabulary *)

(** The value a document holds for a key: that of the last member with it. *)
Fixpoint last_member {V} (k : string) (members : list (string * V)) : option V :=
  match members with
  | [] => None
  | (k', v) :: rest =>
      match last_member k rest with
      | Some v' => Some v'
      | None => if String.eqb k k' then Some v else None
      end
  end.

(** The keys [WorldModel] reads. *)
Definition is_field (kv : string * json) : bool :=
  String.eqb (fst kv) "context" || String.eqb (fst kv) "topics"
  || String.eqb (fst kv) "questions" || String.eqb (fst kv) "summary".

(** A world model as Python holds it: the keys of its [context] are distinct. *)
Definition context_keys_distinct (wm : WorldModel) : Prop :=
  forall d, context wm = Some d -> NoDup (PyDict.keys d).


(** The three media types. *)
Definition media_type_ok (s : string) : Prop :=
  s = "video" \/ s = "podcast" \/ s = "webpage".

(** What a failed analysis may leave behind: nothing, the conversation row,
    or the conversation row and the user's message. *)
Definition analysis_prefix (before after : Sql.DB) : Prop :=
  after = before \/
  (exists row,
     after = Sql.mkDB (Sql.conversations before ++ [row])%list
                      (Sql.messages before) (Sql.webhooks before)) \/
  (exists row m,
     Message.role m = "user" /\
     Message.conversation_id m = Some (Conversation.id row) /\
     after = Sql.mkDB (Sql.conversations before ++ [row])%list
                      (Sql.messages before ++ [m])%list (Sql.webhooks before)).

(** The value of a UUID string read back as a number. *)
Module Unhex.

Definition digit (c : ascii) : N :=
  match c with
  | "0" => 0 | "1" => 1 | "2" => 2 | "3" => 3 | "4" => 4 | "5" => 5
  | "6" => 6 | "7" => 7 | "8" => 8 | "9" => 9 | "a" => 10 | "b" => 11
  | "c" => 12 | "d" => 13 | "e" => 14 | _ => 15
  end%N%char.

Fixpoint value (s : string) (acc : N) : N :=
  match s with
  | EmptyString => acc
  | String c s' => value s' (16 * acc + digit c)%N
  end.

(** The 32 digits of a UUID string, without the hyphens. *)
Definition digits (s : string) : string :=
  substring 0 8 s ++ substring 9 4 s ++ substring 14 4 s ++ substring 19 4 s
    ++ substring 24 12 s.

Definition uuid (s : string) : N := value (digits s) 0.

End Unhex.

(* ================================================================== *)
(** * Facts about strings and the YouTube pattern *)

Section StringFacts.

Lemma startswith_iff (p s : string) :
  PyStr.startswith p s = true <-> exists t, s = p ++ t.
Proof.
  revert s; induction p as [|a p IH]; intros s; simpl.
  - split; [intros _; now exists s | reflexivity].
  - destruct s as [|b s].
    + split; [discriminate | intros [t Ht]; discriminate].
    + rewrite andb_true_iff, Ascii.eqb_eq, IH. split.
      * intros [-> [t ->]]. now exists t.
      * intros [t Ht]. injection Ht as -> ->. split; [reflexivity | now exists t].
Qed.

Lemma contains_iff (needle s : string) :
  PyStr.contains needle s = true <-> exists a b, s = a ++ needle ++ b.
Proof.
  induction s as [|c s IH]; simpl; rewrite orb_true_iff, startswith_iff.
  - split.
    + intros [[t Ht] | H]; [|discriminate]. now exists "", t.
    + intros [[|x a] [b H]]; [left; now exists b | discriminate].
  - rewrite IH. split.
    + intros [[t Ht] | [a [b ->]]]; [now exists "", t | now exists (String c a), b].
    + intros [[|x a] [b H]]; [left; now exists b|].
      right. injection H as _ ->. now exists a, b.
Qed.

Lemma endswith_iff (suffix s : string) :
  PyStr.endswith suffix s = true <-> exists a, s = a ++ suffix.
Proof.
  induction s as [|c s IH]; simpl; rewrite orb_true_iff, String.eqb_eq.
  - split.
    + intros [-> | H]; [now exists "" | discriminate].
    + intros [[|x a] H]; [now left | discriminate].
  - rewrite IH. split.
    + intros [-> | [a ->]]; [now exists "" | now exists (String c a)].
    + intros [[|x a] H]; [now left|].
      right. injection H as _ ->. now exists a.
Qed.

Lemma search_youtube (u : string) :
  is_youtube_url u =
  PyStr.contains "youtube.com" u || PyStr.contains "youtu.be" u.
Proof.
  unfold is_youtube_url, youtube_regex.
  induction u as [|c u IH].
  - reflexivity.
  - cbn [Re.search PyStr.contains Re.match_here]. rewrite IH.
    destruct (PyStr.startswith "youtube.com" (String c u)),
             (PyStr.startswith "youtu.be" (String c u)),
             (PyStr.contains "youtube.com" u),
             (PyStr.contains "youtu.be" u); reflexivity.
Qed.

Lemma is_youtube_url_iff (u : string) :
  is_youtube_url u = true <-> mentions_youtube u.
Proof.
  unfold mentions_youtube.
  now rewrite search_youtube, orb_true_iff, !contains_iff.
Qed.

End StringFacts.

(* ================================================================== *)
(** * How one step of a handler changes the state *)

#[local] Hint Constructors generic_failure : core.

Section Steps.

Variable w : World.

Context {A B : Type}.

Lemma ret_inv (a : A) st r st' :
  ret a st = (r, st') -> r = Ok a /\ st' = st.
Proof. unfold ret. intros H. injection H as <- <-. auto. Qed.

Lemma raise_inv (e : Exn) st (r : result A) st' :
  raise_ e st = (r, st') -> r = Raise e /\ st' = st.
Proof. unfold raise_. intros H. injection H as <- <-. auto. Qed.

Lemma bind_inv (m : M A) (k : A -> M B) st r st' :
  bind m k st = (r, st') ->
  (exists e, m st = (Raise e, st') /\ r = Raise e) \/
  (exists a st1, m st = (Ok a, st1) /\ k a st1 = (r, st')).
Proof.
  unfold bind. destruct (m st) as [[a | e] st1]; intros H.
  - right. eauto.
  - left. injection H as <- <-. eauto.
Qed.

Lemma try_except_inv (m : M A) (h : Exn -> M A) st r st' :
  try_except m h st = (r, st') ->
  (exists a, m st = (Ok a, st') /\ r = Ok a) \/
  (exists e st1, m st = (Raise e, st1) /\ h e st1 = (r, st')).
Proof.
  unfold try_except. destruct (m st) as [[a | e] st1]; intros H.
  - left. injection H as <- <-. eauto.
  - right. eauto.
Qed.

Lemma lift_inv (x : PyError + A) st r st' :
  lift x st = (r, st') ->
  st' = st /\
  ((exists a, x = inr a /\ r = Ok a) \/
   (exists e, x = inl e /\ r = Raise (Uncaught e))).
Proof.
  unfold lift. destruct x; intros H; injection H as <- <-; eauto.
Qed.

Lemma query_inv (s : Sql.statement) (read : Sql.DB -> A) st r st' :
  query w s read st = (r, st') ->
  st' = ran s (db st) st /\
  ((db_fault w (statements_run st) = None /\ r = Ok (read (db st))) \/
   (exists e, db_fault w (statements_run st) = Some e /\ r = Raise (Uncaught e))).
Proof.
  unfold query, statement, ran.
  destruct (db_fault w (statements_run st)); intros H; injection H as <- <-; eauto.
Qed.

End Steps.

Section MoreSteps.

Variable w : World.

Lemma emit_inv (e : Event) st r st' :
  emit e st = (r, st') -> r = Ok tt /\ st' = log [e] st.
Proof. unfold emit, log. intros H. injection H as <- <-. auto. Qed.

Lemma uuid4_inv st r st' :
  uuid4 w st = (r, st') -> r = Ok (uuid4_at w (uuids_drawn st)) /\ st' = drew st.
Proof. unfold uuid4, drew. intros H. injection H as <- <-. auto. Qed.

Lemma execute_inv (s : Sql.statement) write st r st' :
  execute w s write st = (r, st') ->
  (exists d, db_fault w (statements_run st) = None /\
             write (now w (statements_run st)) (db st) = inr d /\
             r = Ok tt /\ st' = ran s d st) \/
  (exists e, r = Raise (Uncaught e) /\ st' = ran s (db st) st).
Proof.
  unfold execute, statement, ran.
  destruct (db_fault w (statements_run st)).
  - intros H; injection H as <- <-; eauto.
  - destruct (write (now w (statements_run st)) (db st)) as [e | d];
      intros H; injection H as <- <-; [right | left]; eauto 10.
Qed.

Lemma get_db_pool_inv st r st' :
  get_db_pool w st = (r, st') ->
  st' = st /\
  ((r = Ok tt /\ exists db_url, getenv_DATABASE_URL w = Some db_url /\
                                PyStr.truthy db_url = true /\
                                create_pool w db_url = None) \/
   (exists e, r = Raise e /\ generic_failure e)).
Proof.
  unfold get_db_pool.
  destruct (getenv_DATABASE_URL w) as [db_url|].
  - destruct (PyStr.truthy db_url) eqn:T; cbn [negb].
    + destruct (create_pool w db_url) eqn:P; intros H;
        [apply raise_inv in H | apply ret_inv in H]; destruct H as [-> ->];
        split; eauto 8.
    + intros H. apply raise_inv in H. destruct H as [-> ->].
      split; [reflexivity | right; eexists; split; [reflexivity | apply generic_http]].
  - intros H. apply raise_inv in H. destruct H as [-> ->].
    split; [reflexivity | right; eexists; split; [reflexivity | apply generic_http]].
Qed.

Lemma acquire_inv st r st' :
  acquire w st = (r, st') ->
  st' = st /\
  ((r = Ok tt /\ pool_acquire w = None) \/
   (exists e, r = Raise e /\ generic_failure e)).
Proof.
  unfold acquire. destruct (pool_acquire w); intros H;
    [apply raise_inv in H | apply ret_inv in H]; destruct H as [-> ->]; eauto 6.
Qed.

Lemma continue_conversation_inv wm history new_content st r st' :
  continue_conversation w wm history new_content st = (r, st') ->
  let prompt := continue_conversation_prompt wm history new_content in
  st' = log [EvLLM prompt] st /\
  ((exists upd, llm_continue w prompt = inr upd /\ r = Ok upd) \/
   (exists e, llm_continue w prompt = inl e /\ r = Raise (Uncaught e))).
Proof.
  unfold continue_conversation, bind, emit, lift, log. cbn.
  destruct (llm_continue w _); intros H; injection H as <- <-; eauto.
Qed.

Lemma analyze_content_inv content thought st r st' :
  analyze_content w content thought st = (r, st') ->
  let prompt := analyze_content_prompt content thought in
  st' = log [EvLLM prompt] st /\
  ((exists a, llm_analyze w prompt = inr a /\ r = Ok a) \/
   (exists e, llm_analyze w prompt = inl e /\ r = Raise (Uncaught e))).
Proof.
  unfold analyze_content, bind, emit, lift, log. cbn.
  destruct (llm_analyze w _); intros H; injection H as <- <-; eauto.
Qed.

(** [process_webpage]: one outbound request, whose failure becomes a 500. *)
Lemma process_webpage_run u st :
  process_webpage w u st =
  (match requests_get_text w (JINA_READER_URL ++ u) with
   | inr text => Ok text
   | inl e => Raise (HTTPException 500 ("Failed to process webpage: " ++ err_msg e))
   end,
   log [EvHttpGet (JINA_READER_URL ++ u)] st).
Proof.
  unfold process_webpage, try_except, bind, emit, lift, raise_, log. cbn.
  destruct (requests_get_text w _); reflexivity.
Qed.

Lemma process_media_run u st :
  process_media w u st = (fst (media_result w u), log (snd (media_result w u)) st).
Proof.
  assert (L : log [] st = st) by (destruct st; reflexivity).
  unfold process_media, media_result.
  destruct (is_youtube_url u); [cbn; now rewrite L|].
  unfold bind at 1, is_podcast_url, bind at 1, lift.
  destruct (urlparse_path w u) as [e | path]; [cbn; now rewrite L|].
  cbn [ret]. destruct (PyStr.endswith ".mp3" (PyStr.lower path)); [cbn; now rewrite L|].
  unfold bind. rewrite process_webpage_run.
  destruct (requests_get_text w _); reflexivity.
Qed.

Lemma media_result_events u :
  snd (media_result w u) = [] \/
  snd (media_result w u) = [EvHttpGet (JINA_READER_URL ++ u)].
Proof.
  unfold media_result.
  destruct (is_youtube_url u); [now left|].
  destruct (urlparse_path w u); [now left|].
  destruct (PyStr.endswith _ _); [now left | now right].
Qed.

Lemma media_result_raises u e :
  fst (media_result w u) = Raise e -> generic_failure e.
Proof.
  unfold media_result.
  destruct (is_youtube_url u); [discriminate|].
  destruct (urlparse_path w u); [cbn; intros [= <-]; auto|].
  destruct (PyStr.endswith _ _); [discriminate|].
  destruct (requests_get_text w _); [|discriminate].
  cbn. intros [= <-]. auto.
Qed.

Lemma process_media_inv u st r st' :
  process_media w u st = (r, st') ->
  fst (media_result w u) = r /\ st' = log (snd (media_result w u)) st.
Proof. rewrite process_media_run. intros H. injection H as <- <-. auto. Qed.

End MoreSteps.

(* ================================================================== *)
(** * Facts about the statements *)

Section SqlFacts.

Lemma select_conversation_None cid d :
  Sql.select_conversation cid d = None <-> Sql.has_conversation cid d = false.
Proof.
  unfold Sql.select_conversation, Sql.has_conversation.
  induction (Sql.conversations d) as [|r rows IH]; cbn; [tauto|].
  destruct (N.eqb (Conversation.id r) cid); cbn; [split; discriminate | exact IH].
Qed.

Lemma select_conversation_Some cid d row :
  Sql.select_conversation cid d = Some row ->
  In row (Sql.conversations d) /\ Conversation.id row = cid.
Proof.
  unfold Sql.select_conversation. intros H. apply find_some in H.
  destruct H as [Hin Hid]. apply N.eqb_eq in Hid. auto.
Qed.

Lemma insert_conversation_inv cid u mt insight analysis wm t d d' :
  Sql.insert_conversation cid u mt insight analysis wm t d = inr d' ->
  Sql.has_conversation cid d = false /\
  d' = Sql.mkDB
         (Sql.conversations d ++
            [Conversation.mk cid u mt (Some insight) (Some analysis) (Some wm) (Some t)])%list
         (Sql.messages d) (Sql.webhooks d).
Proof.
  unfold Sql.insert_conversation.
  destruct (Sql.has_conversation cid d); [discriminate|].
  intros H. injection H as <-. auto.
Qed.

Lemma insert_message_inv mid cid role content t d d' :
  Sql.insert_message mid cid role content t d = inr d' ->
  Sql.has_message mid d = false /\ Sql.has_conversation cid d = true /\
  d' = Sql.mkDB (Sql.conversations d)
         (Sql.messages d ++ [Message.mk mid (Some cid) role content (Some t)])%list
         (Sql.webhooks d).
Proof.
  unfold Sql.insert_message.
  destruct (Sql.has_message mid d); [discriminate|].
  destruct (Sql.has_conversation cid d); [|discriminate].
  cbn. intros H. injection H as <-. auto.
Qed.

Lemma insert_webhook_inv wid u secret events d d' :
  Sql.insert_webhook wid u secret events d = inr d' ->
  Sql.conversations d' = Sql.conversations d /\ Sql.messages d' = Sql.messages d.
Proof.
  unfold Sql.insert_webhook.
  destruct (Sql.webhooks d); [|discriminate].
  intros H. injection H as <-. auto.
Qed.

Lemma has_conversation_app cid convs row msgs hooks :
  Sql.has_conversation cid (Sql.mkDB (convs ++ [row]) msgs hooks) =
  Sql.has_conversation cid (Sql.mkDB convs msgs hooks) || N.eqb (Conversation.id row) cid.
Proof.
  unfold Sql.has_conversation. cbn. rewrite existsb_app. cbn. now rewrite orb_false_r.
Qed.

(** The update keeps every row's key. *)
Lemma has_conversation_update c doc cid d :
  Sql.has_conversation c (Sql.update_world_model doc cid d) = Sql.has_conversation c d.
Proof.
  unfold Sql.has_conversation, Sql.update_world_model. cbn.
  induction (Sql.conversations d) as [|r rows IH]; cbn; [reflexivity|].
  rewrite IH. now destruct (N.eqb (Conversation.id r) cid).
Qed.

End SqlFacts.

(* ================================================================== *)
(** * Walking through a handler *)

Ltac tidy :=
  repeat match goal with
  | H : _ /\ _ |- _ => destruct H
  | H : exists _, _ |- _ => destruct H
  | H : Ok _ = Ok _ |- _ => injection H as H
  | H : Raise _ = Raise _ |- _ => injection H as H
  | H : Ok _ = Raise _ |- _ => discriminate H
  | H : Raise _ = Ok _ |- _ => discriminate H
  | H : inr _ = inr _ |- _ => injection H as H
  | H : inl _ = inl _ |- _ => injection H as H
  | H : inl _ = inr _ |- _ => discriminate H
  | H : inr _ = inl _ |- _ => discriminate H
  | H : Sql.insert_message _ _ _ _ _ _ = inr _ |- _ => apply insert_message_inv in H
  | H : Sql.insert_conversation _ _ _ _ _ _ _ _ = inr _ |- _ =>
      apply insert_conversation_inv in H
  | H : ?x = ?x |- _ => clear H
  end;
  subst;
  cbn [db uuids_drawn statements_run trace ran drew log
       Sql.conversations Sql.messages Sql.webhooks] in *.

Ltac inv_prim H :=
  lazymatch type of H with
  | ret _ _ = _ => apply ret_inv in H
  | raise_ _ _ = _ => apply raise_inv in H
  | get_db_pool _ _ = _ => apply get_db_pool_inv in H
  | acquire _ _ = _ => apply acquire_inv in H
  | query _ _ _ _ = _ => apply query_inv in H
  | execute _ _ _ _ = _ => apply execute_inv in H
  | uuid4 _ _ = _ => apply uuid4_inv in H
  | lift _ _ = _ => apply lift_inv in H
  | emit _ _ = _ => apply emit_inv in H
  | process_media _ _ _ = _ => apply process_media_inv in H
  | continue_conversation _ _ _ _ _ = _ =>
      apply continue_conversation_inv in H; cbv zeta in H
  | analyze_content _ _ _ _ = _ => apply analyze_content_inv in H; cbv zeta in H
  end.

(** One step: split a [bind] or a [try], read off what a primitive did, or
    branch where the handler does. *)
Ltac walk1 :=
  match goal with
  | H : bind _ _ _ = (_, _) |- _ =>
      apply bind_inv in H;
      destruct H as [[? [H ?]] | [? [? [? H]]]]; [ | cbv beta zeta in H]
  | H : try_except _ _ _ = (_, _) |- _ =>
      apply try_except_inv in H;
      destruct H as [[? [H ?]] | [? [? [? H]]]]; [ | cbv beta zeta in H]
  | H : fmap _ _ _ = (_, _) |- _ => unfold fmap in H
  | H : _ = (_, _) |- _ => inv_prim H
  | H : _ \/ _ |- _ => destruct H
  | _ => progress tidy
  | H : (match ?x with _ => _ end) _ = (_, _) |- _ => destruct x eqn:?
  end.

Ltac walk := repeat walk1.

(* ================================================================== *)
(** * What each handler does, on every path *)

Lemma ext_nil (t : list Event) : t = ([] ++ t)%list.
Proof. reflexivity. Qed.

Lemma ext_cons (e : Event) evs t t' :
  t' = (evs ++ t)%list -> e :: t' = ((e :: evs) ++ t)%list.
Proof. intros ->. reflexivity. Qed.

Lemma events_since_ext before after evs :
  trace after = (evs ++ trace before)%list -> events_since before after = rev evs.
Proof.
  unfold events_since. intros ->. rewrite length_app.
  replace (length evs + length (trace before) - length (trace before)) with (length evs) by lia.
  rewrite firstn_app, Nat.sub_diag, firstn_all. cbn. now rewrite app_nil_r.
Qed.

Lemma same_but_world_model_refl r : same_but_world_model r r.
Proof. repeat split. Qed.

Lemma same_but_world_model_update doc cid r :
  same_but_world_model r
    (if N.eqb (Conversation.id r) cid then Conversation.set_world_model (Some doc) r else r).
Proof. destruct (N.eqb _ _); repeat split. Qed.

(** The fetch of [process_media] is sent or it is not. *)
Ltac split_media :=
  repeat match goal with
  | |- context [snd (media_result ?w ?u)] =>
      let M := fresh "M" in
      destruct (media_result_events w u) as [M | M]; rewrite M in *
  end.

Ltac solve_ext := repeat first [apply ext_nil | eapply ext_cons].

Ltac solve_trace :=
  split_media; cbn [app];
  eexists; (split; [ solve_ext | cbn; repeat split; lia ]).

Ltac solve_sent :=
  split_media; cbn [app];
  eexists;
  (split; [ solve_ext
          | split; [ cbn; repeat split; lia
                   | apply events_since_ext; cbn [trace]; solve_ext ] ]).

Ltac solve_generic :=
  solve [ eauto using media_result_raises | apply generic_http | apply generic_uncaught ].

Ltac solve_raise :=
  let e := fresh "e" in
  let He := fresh "He" in
  intros e He; try discriminate He; injection He as <-;
  first [ left; solve_generic
        | right; split; [reflexivity | first [reflexivity | assumption] ] ].

Ltac solve_messages :=
  cbn [Sql.update_world_model Sql.conversations Sql.messages Sql.webhooks];
  rewrite <- ?app_assoc; cbn [app];
  first [ exists []; split; [symmetry; apply app_nil_r | left; reflexivity]
        | eexists; split;
          [ reflexivity
          | unfold pair_prefix, user_row, assistant_row;
            first [ right; left; repeat eexists; fail
                  | right; right; repeat eexists ] ] ].

Ltac solve_conversations :=
  cbn [Sql.update_world_model Sql.conversations Sql.messages Sql.webhooks];
  first [ exists (fun r => r), []; split;
          [ now rewrite map_id, app_nil_r | apply same_but_world_model_refl ]
        | exists (fun r => r); eexists; split;
          [ rewrite map_id; reflexivity | apply same_but_world_model_refl ]
        | eexists; exists []; split;
          [ rewrite app_nil_r; reflexivity | intros; apply same_but_world_model_update ] ].

Ltac solve_rows := split; [solve_messages | solve_conversations].

Section Paths.

Variable w : World.

Lemma add_message_ok_inv cid message u st out st' :
  add_message w cid message u st = (Ok out, st') ->
  exists row wm new_content upd,
    let n := statements_run st in
    let mid1 := uuid4_at w (uuids_drawn st) in
    let mid2 := uuid4_at w (S (uuids_drawn st)) in
    let ai := ai_message_of (upd_response upd) (upd_follow_up upd) in
    Sql.select_conversation cid (db st) = Some row /\
    WM.load (Conversation.world_model row) = inr wm /\
    llm_continue w (continue_conversation_prompt wm (history cid (db st)) new_content)
      = inr upd /\
    out = [ NewMessage.mk (Uuid.str mid1) "user" message;
            NewMessage.mk (Uuid.str mid2) "assistant" ai ] /\
    db st' =
      Sql.mkDB
        (Sql.conversations
           (Sql.update_world_model (WM.dict (updated_world_model upd)) cid (db st)))
        (Sql.messages (db st) ++
           [ user_row mid1 cid message (now w (3 + n));
             assistant_row mid2 cid ai (now w (4 + n)) ])%list
        (Sql.webhooks (db st)).
Proof.
  unfold add_message, history, user_row, assistant_row. intros H.
  walk.
  all: cbn [Sql.update_world_model Sql.conversations Sql.messages Sql.webhooks].
  all: rewrite <- app_assoc; cbn [app plus].
  all: eauto 12.
Qed.

Lemma add_message_any cid message u st r st' :
  add_message w cid message u st = (r, st') ->
  (exists evs, trace st' = (evs ++ trace st)%list /\
               (count is_http_get evs <= 1 /\ count is_llm evs <= 1 /\
                count is_sql evs <= 5)%nat /\
               writes_follow_llm false (rev evs) = true) /\
  (forall e, r = Raise e ->
             generic_failure e \/
             (e = HTTPException 404 "Conversation not found" /\
              Sql.select_conversation cid (db st) = None)) /\
  rows_kept (db st) (db st') /\
  ((db st' = db st /\ exists e, r = Raise e) \/
   (exists row wm new_content upd,
      Sql.select_conversation cid (db st) = Some row /\
      WM.load (Conversation.world_model row) = inr wm /\
      new_content_ok w u new_content /\
      llm_continue w (continue_conversation_prompt wm (history cid (db st)) new_content)
        = inr upd)).
Proof.
  unfold add_message, history. intros H.
  walk.
  all: (split; [solve_trace|]).
  all: (split; [solve_raise|]).
  all: (split; [solve_rows|]).
  all: try (left; split; [reflexivity | eauto]; fail).
  all: right; unfold new_content_ok;
       repeat match goal with H : PyStr.truthy _ = _ |- _ => rewrite H; clear H end;
       eauto 12.
Qed.

Lemma analyze_media_ok_inv request st s st' :
  analyze_media w request st = (Ok s, st') ->
  exists media analysis,
    let n := statements_run st in
    let cid := uuid4_at w (uuids_drawn st) in
    let mid1 := uuid4_at w (1 + uuids_drawn st) in
    let mid2 := uuid4_at w (2 + uuids_drawn st) in
    fst (media_result w (url request)) = Ok media /\
    llm_analyze w (analyze_content_prompt (Media.content media) (initialThought request))
      = inr analysis /\
    s = Uuid.str cid /\
    Sql.has_conversation cid (db st) = false /\
    statements_run st' = 3 + n /\
    db st' =
      Sql.mkDB
        (Sql.conversations (db st) ++
           [ Conversation.mk cid (url request) (Media.type media)
               (Some (initialThought request)) (Some (response analysis))
               (Some (WM.dict (world_model analysis))) (Some (now w n)) ])%list
        (Sql.messages (db st) ++
           [ user_row mid1 cid (initialThought request) (now w (1 + n));
             assistant_row mid2 cid
               (ai_message_of (response analysis) (follow_up analysis))
               (now w (2 + n)) ])%list
        (Sql.webhooks (db st)).
Proof.
  unfold analyze_media, user_row, assistant_row. intros H.
  walk.
  all: rewrite <- app_assoc; cbn [app plus].
  all: eauto 12.
Qed.

Lemma analyze_media_any request st r st' :
  analyze_media w request st = (r, st') ->
  sent_at_most 3 st st' /\
  (forall e, r = Raise e -> generic_failure e) /\
  rows_kept (db st) (db st').
Proof.
  unfold analyze_media. intros H.
  walk.
  all: (split; [solve_sent|]).
  all: (split; [intros e He; try discriminate He; injection He as <-; solve_generic|]).
  all: solve_rows.
Qed.

Lemma get_conversation_any cid st r st' :
  get_conversation w cid st = (r, st') ->
  sent_at_most 1 st st' /\
  (forall e, r = Raise e -> generic_failure e) /\
  db st' = db st.
Proof.
  unfold get_conversation. intros H.
  walk.
  all: (split; [solve_sent|]).
  all: (split; [intros e He; try discriminate He; injection He as <-; solve_generic|]).
  all: reflexivity.
Qed.

Lemma share_conversation_any request st r st' :
  share_conversation w request st = (r, st') ->
  sent_at_most 1 st st' /\
  (forall e, r = Raise e -> generic_failure e) /\
  db st' = db st.
Proof.
  unfold share_conversation. intros H.
  walk.
  all: (split; [solve_sent|]).
  all: (split; [intros e He; try discriminate He; injection He as <-; solve_generic|]).
  all: reflexivity.
Qed.

Lemma create_webhook_any u events secret st r st' :
  create_webhook w u events secret st = (r, st') ->
  sent_at_most 1 st st' /\
  (forall e, r = Raise e -> generic_failure e) /\
  Sql.conversations (db st') = Sql.conversations (db st) /\
  Sql.messages (db st') = Sql.messages (db st).
Proof.
  unfold create_webhook. intros H.
  walk.
  all: (split; [solve_sent|]).
  all: (split; [intros e He; try discriminate He; injection He as <-; solve_generic|]).
  all: try (split; reflexivity).
  all: match goal with
       | H : Sql.insert_webhook _ _ _ _ _ = inr _ |- _ =>
           apply insert_webhook_inv in H; exact H
       end.
Qed.

End Paths.

(* ================================================================== *)
(** * From handlers to responses *)

Lemma sent_at_most_le n m st st' :
  (n <= m)%nat -> sent_at_most n st st' -> sent_at_most m st st'.
Proof.
  intros Hle (evs & Ht & (Hh & Hl & Hs) & He).
  exists evs. repeat split; auto. lia.
Qed.

Lemma rows_kept_same d d' :
  Sql.conversations d' = Sql.conversations d ->
  Sql.messages d' = Sql.messages d ->
  rows_kept d d'.
Proof.
  intros Hc Hm. split.
  - exists []. rewrite Hm, app_nil_r. split; [reflexivity | now left].
  - exists (fun r => r), []. rewrite Hc, map_id, app_nil_r.
    split; [reflexivity | apply same_but_world_model_refl].
Qed.

Lemma pair_prefix_roles newm : pair_prefix newm -> Forall role_ok newm.
Proof.
  intros [-> | [(mid & cid & c & t & ->) | (m1 & m2 & cid & c1 & c2 & t1 & t2 & ->)]];
    repeat (apply Forall_cons; [unfold role_ok; cbn; auto|]); apply Forall_nil.
Qed.

Lemma fmap_inv {A B} (f : A -> B) (m : M A) st r st' :
  fmap f m st = (r, st') ->
  exists r0, m st = (r0, st') /\
             r = match r0 with Ok a => Ok (f a) | Raise e => Raise e end.
Proof.
  unfold fmap. intros H. apply bind_inv in H.
  destruct H as [(e & H & ->) | (a & st1 & H & K)].
  - exists (Raise e). auto.
  - apply ret_inv in K. destruct K as [-> ->]. exists (Ok a). auto.
Qed.

Lemma handle_any w req st r st' :
  handle w req st = (r, st') ->
  sent_at_most 5 st st' /\
  (forall e, r = Raise e ->
             generic_failure e \/
             (e = HTTPException 404 "Conversation not found" /\
              exists cid message u,
                req = POST_messages cid message u /\
                Sql.has_conversation cid (db st) = false)) /\
  rows_kept (db st) (db st').
Proof.
  destruct req as [request | cid | request | u events secret | cid message u | ];
    cbn [handle]; intros H; apply fmap_inv in H; destruct H as (r0 & H & ->).
  - apply analyze_media_any in H. destruct H as (Hs & He & Hr).
    split; [eapply sent_at_most_le; [|exact Hs]; lia|]. split; [|exact Hr].
    intros e E. destruct r0; [discriminate|]. injection E as <-. left. now apply He.
  - apply get_conversation_any in H. destruct H as (Hs & He & Hd).
    split; [eapply sent_at_most_le; [|exact Hs]; lia|].
    split; [|rewrite Hd; now apply rows_kept_same].
    intros e E. destruct r0; [discriminate|]. injection E as <-. left. now apply He.
  - apply share_conversation_any in H. destruct H as (Hs & He & Hd).
    split; [eapply sent_at_most_le; [|exact Hs]; lia|].
    split; [|rewrite Hd; now apply rows_kept_same].
    intros e E. destruct r0; [discriminate|]. injection E as <-. left. now apply He.
  - apply create_webhook_any in H. destruct H as (Hs & He & Hc & Hm).
    split; [eapply sent_at_most_le; [|exact Hs]; lia|].
    split; [|now apply rows_kept_same].
    intros e E. destruct r0; [discriminate|]. injection E as <-. left. now apply He.
  - apply add_message_any in H. destruct H as ((evs & Ht & Hc & _) & He & Hr & _).
    split; [exists evs; repeat split; try tauto; now apply events_since_ext|].
    split; [|exact Hr].
    intros e E. destruct r0 as [|e0]; [discriminate|]. injection E as ->.
    destruct (He e eq_refl) as [G | [-> Hn]]; [now left|].
    right. split; [reflexivity|]. exists cid, message, u.
    split; [reflexivity | now apply select_conversation_None].
  - unfold health in H. apply ret_inv in H. destruct H as [-> ->].
    split; [|split; [discriminate | now apply rows_kept_same]].
    exists []. split; [reflexivity|]. split; [cbn; lia|].
    now apply (events_since_ext st st []).
Qed.

Lemma app_inv w req st resp st' :
  app w req st = (resp, st') ->
  exists r, handle w req st = (r, st') /\ resp = respond r.
Proof.
  unfold app. destruct (handle w req st) as [r st1]. intros H.
  injection H as <- <-. eauto.
Qed.

(** A 200 is sent only for a handler that returned. *)
Lemma status_200_inv w req st r st' :
  handle w req st = (r, st') ->
  status (respond r) = 200%Z ->
  exists b, r = Ok b.
Proof.
  intros H S. destruct r as [b | e]; [eauto|].
  apply handle_any in H. destruct H as (_ & He & _).
  destruct (He e eq_refl) as [G | [-> _]]; [destruct G|]; discriminate S.
Qed.

Lemma app_messages_200 w cid message u st resp st' :
  app w (POST_messages cid message u) st = (resp, st') ->
  status resp = 200%Z ->
  exists out, add_message w cid message u st = (Ok out, st') /\
              resp = mkResponse 200 (NewMessagesBody out) [].
Proof.
  intros H S. apply app_inv in H. destruct H as (r & H & ->).
  destruct (status_200_inv _ _ _ _ _ H S) as [b ->].
  cbn [handle] in H. apply fmap_inv in H. destruct H as (r0 & H & E).
  destruct r0 as [out | e]; [|discriminate]. injection E as ->. eauto.
Qed.

Lemma app_analyze_200 w request st resp st' :
  app w (POST_analyze request) st = (resp, st') ->
  status resp = 200%Z ->
  exists s, analyze_media w request st = (Ok s, st') /\
            resp = mkResponse 200 (ConversationIdBody s) [].
Proof.
  intros H S. apply app_inv in H. destruct H as (r & H & ->).
  destruct (status_200_inv _ _ _ _ _ H S) as [b ->].
  cbn [handle] in H. apply fmap_inv in H. destruct H as (r0 & H & E).
  destruct r0 as [s | e]; [|discriminate]. injection E as ->. eauto.
Qed.

(* ================================================================== *)
(** * Running the short handlers forwards *)

Lemma get_db_pool_ok w st :
  pool_ok w -> get_db_pool w st = (Ok tt, st) /\ acquire w st = (Ok tt, st).
Proof.
  intros (db_url & Hg & Ht & Hc & Ha).
  unfold get_db_pool, acquire. now rewrite Hg, Ht, Hc, Ha.
Qed.

Lemma query_ok {A} w s (read : Sql.DB -> A) st :
  db_fault w (statements_run st) = None ->
  query w s read st = (Ok (read (db st)), ran s (db st) st).
Proof. unfold query, statement, ran. now intros ->. Qed.

Lemma get_conversation_ok w cid st :
  pool_ok w -> db_fault w (statements_run st) = None ->
  get_conversation w cid st =
  (Ok (Sql.select_messages cid (db st)), ran (Sql.SelectMessages cid) (db st) st).
Proof.
  intros Hp Hf. destruct (get_db_pool_ok w st Hp) as [Hg Ha].
  unfold get_conversation, bind. now rewrite Hg, Ha, query_ok.
Qed.

Lemma share_conversation_ok w request st :
  pool_ok w -> db_fault w (statements_run st) = None ->
  share_conversation w request st =
  (match Sql.select_conversation (conversationId request) (db st) with
   | Some _ => Ok (mkShareResponse ("/share/" ++ Uuid.str (conversationId request)))
   | None =>
       Raise (Uncaught (mkPyError "TypeError"
         "HTTPException.__init__() got an unexpected keyword argument 'message'"))
   end,
   ran (Sql.SelectConversation (conversationId request)) (db st) st).
Proof.
  intros Hp Hf. destruct (get_db_pool_ok w st Hp) as [Hg Ha].
  unfold share_conversation, bind. rewrite Hg, Ha, query_ok by assumption.
  destruct (Sql.select_conversation _ _); reflexivity.
Qed.

Lemma add_message_unknown w cid message u st :
  pool_ok w -> db_fault w (statements_run st) = None ->
  Sql.select_conversation cid (db st) = None ->
  add_message w cid message u st =
  (Raise (HTTPException 404 "Conversation not found"),
   ran (Sql.SelectConversation cid) (db st) st).
Proof.
  intros Hp Hf Hn. destruct (get_db_pool_ok w st Hp) as [Hg Ha].
  unfold add_message, bind. rewrite Hg, Ha, query_ok by assumption.
  now rewrite Hn.
Qed.

(* ================================================================== *)
(** * The schema's constraints hold after every request *)

Section Keeps.

Variable w : World.
Variable P : Sql.DB -> Prop.

Lemma keeps_ret {A} (a : A) : keeps P (ret a).
Proof. intros st r st' HP H. apply ret_inv in H. now destruct H as [_ ->]. Qed.

Lemma keeps_raise {A} e : keeps P (@raise_ A e).
Proof. intros st r st' HP H. apply raise_inv in H. now destruct H as [_ ->]. Qed.

Lemma keeps_bind {A B} (m : M A) (k : A -> M B) :
  keeps P m -> (forall a, keeps P (k a)) -> keeps P (bind m k).
Proof.
  intros Hm Hk st r st' HP H. apply bind_inv in H.
  destruct H as [(e & H & _) | (a & st1 & H & K)].
  - eapply Hm; eauto.
  - eapply Hk; [|exact K]. eapply Hm; eauto.
Qed.

Lemma keeps_try {A} (m : M A) h :
  keeps P m -> (forall e, keeps P (h e)) -> keeps P (try_except m h).
Proof.
  intros Hm Hh st r st' HP H. apply try_except_inv in H.
  destruct H as [(a & H & _) | (e & st1 & H & K)].
  - eapply Hm; eauto.
  - eapply Hh; [|exact K]. eapply Hm; eauto.
Qed.

Lemma keeps_lift {A} (x : PyError + A) : keeps P (lift x).
Proof. intros st r st' HP H. apply lift_inv in H. now destruct H as [-> _]. Qed.

Lemma keeps_emit e : keeps P (emit e).
Proof. intros st r st' HP H. apply emit_inv in H. now destruct H as [_ ->]. Qed.

Lemma keeps_uuid4 : keeps P (uuid4 w).
Proof. intros st r st' HP H. apply uuid4_inv in H. now destruct H as [_ ->]. Qed.

Lemma keeps_query {A} s (read : Sql.DB -> A) : keeps P (query w s read).
Proof. intros st r st' HP H. apply query_inv in H. now destruct H as [-> _]. Qed.

Lemma keeps_execute s write :
  (forall t d d', P d -> write t d = inr d' -> P d') ->
  keeps P (execute w s write).
Proof.
  intros Hw st r st' HP H. apply execute_inv in H.
  destruct H as [(d & _ & Hd & _ & ->) | (e & _ & ->)]; cbn; eauto.
Qed.

Lemma keeps_get_db_pool : keeps P (get_db_pool w).
Proof. intros st r st' HP H. apply get_db_pool_inv in H. now destruct H as [-> _]. Qed.

Lemma keeps_acquire : keeps P (acquire w).
Proof. intros st r st' HP H. apply acquire_inv in H. now destruct H as [-> _]. Qed.

Lemma keeps_process_media u : keeps P (process_media w u).
Proof. intros st r st' HP H. apply process_media_inv in H. now destruct H as [_ ->]. Qed.

Lemma keeps_analyze_content c t : keeps P (analyze_content w c t).
Proof.
  intros st r st' HP H. apply analyze_content_inv in H. now destruct H as [-> _].
Qed.

Lemma keeps_continue_conversation wm h nc : keeps P (continue_conversation w wm h nc).
Proof.
  intros st r st' HP H. apply continue_conversation_inv in H. now destruct H as [-> _].
Qed.

End Keeps.

(** Every step of a handler keeps [P], if its writes do. *)
Ltac keeps_steps :=
  repeat first
    [ apply keeps_bind; [|intros ?]
    | apply keeps_try; [|intros ?]
    | apply keeps_ret | apply keeps_raise | apply keeps_lift | apply keeps_emit
    | apply keeps_uuid4 | apply keeps_query | apply keeps_get_db_pool
    | apply keeps_acquire | apply keeps_process_media | apply keeps_analyze_content
    | apply keeps_continue_conversation
    | apply keeps_execute; intros ? ? ? ? ?
    | match goal with
      | |- keeps _ (match ?x with _ => _ end) => destruct x
      end ].

Lemma has_conversation_In cid d :
  Sql.has_conversation cid d = true <-> In cid (map Conversation.id (Sql.conversations d)).
Proof.
  unfold Sql.has_conversation. rewrite existsb_exists, in_map_iff. split.
  - intros (r & Hin & E). apply N.eqb_eq in E. eauto.
  - intros (r & E & Hin). exists r. split; [exact Hin | now apply N.eqb_eq].
Qed.

Lemma has_message_In mid d :
  Sql.has_message mid d = true <-> In mid (map Message.id (Sql.messages d)).
Proof.
  unfold Sql.has_message. rewrite existsb_exists, in_map_iff. split.
  - intros (r & Hin & E). apply N.eqb_eq in E. eauto.
  - intros (r & E & Hin). exists r. split; [exact Hin | now apply N.eqb_eq].
Qed.

Lemma NoDup_snoc {A} (x : A) l : NoDup l -> ~ In x l -> NoDup (l ++ [x]).
Proof.
  intros Hl Hx. apply NoDup_app; [exact Hl | repeat constructor; auto |].
  intros a Ha [<- | []]. contradiction.
Qed.

Lemma fk_ok_more_conversations d convs' msgs' hooks' :
  Sql.fk_ok d = true ->
  (forall c, Sql.has_conversation c d = true ->
             Sql.has_conversation c (Sql.mkDB convs' msgs' hooks') = true) ->
  (forall m, In m msgs' ->
             In m (Sql.messages d) \/
             exists c, Message.conversation_id m = Some c /\
                       Sql.has_conversation c (Sql.mkDB convs' msgs' hooks') = true) ->
  Sql.fk_ok (Sql.mkDB convs' msgs' hooks') = true.
Proof.
  unfold Sql.fk_ok. intros Hfk Hmono Hmsgs.
  rewrite forallb_forall in *. cbn [Sql.messages]. intros m Hin.
  destruct (Hmsgs m Hin) as [Hold | (c & -> & Hc)]; [|exact Hc].
  specialize (Hfk m Hold). destruct (Message.conversation_id m); [|reflexivity].
  now apply Hmono.
Qed.

Lemma insert_conversation_schema cid u mt insight analysis wm t d d' :
  schema_ok d ->
  Sql.insert_conversation cid u mt insight analysis wm t d = inr d' ->
  schema_ok d'.
Proof.
  intros (Hc & Hm & Hfk) H. apply insert_conversation_inv in H.
  destruct H as [Hnew ->]. split; [|split]; cbn [Sql.conversations Sql.messages].
  - rewrite map_app. apply NoDup_snoc; [exact Hc|].
    intros Hin. apply has_conversation_In in Hin. cbn in Hin. congruence.
  - exact Hm.
  - apply (fk_ok_more_conversations d); [exact Hfk | |auto].
    intros c Hold. destruct d as [convs msgs hooks].
    rewrite has_conversation_app. cbn in Hold |- *.
    unfold Sql.has_conversation in Hold. cbn in Hold. unfold Sql.has_conversation. cbn.
    now rewrite Hold.
Qed.

Lemma insert_message_schema mid cid role content t d d' :
  schema_ok d ->
  Sql.insert_message mid cid role content t d = inr d' ->
  schema_ok d'.
Proof.
  intros (Hc & Hm & Hfk) H. apply insert_message_inv in H.
  destruct H as (Hnew & Hcid & ->). split; [|split]; cbn [Sql.conversations Sql.messages].
  - exact Hc.
  - rewrite map_app. apply NoDup_snoc; [exact Hm|].
    intros Hin. apply has_message_In in Hin. cbn in Hin. congruence.
  - apply (fk_ok_more_conversations d); [exact Hfk | auto |].
    intros m Hin. apply in_app_or in Hin. destruct Hin as [Hin | [<- | []]]; [now left|].
    right. exists cid. split; [reflexivity | exact Hcid].
Qed.

Lemma update_world_model_schema doc cid d :
  schema_ok d -> schema_ok (Sql.update_world_model doc cid d).
Proof.
  intros (Hc & Hm & Hfk).
  assert (Hids : map Conversation.id (Sql.conversations (Sql.update_world_model doc cid d))
                 = map Conversation.id (Sql.conversations d)).
  { unfold Sql.update_world_model. cbn. rewrite map_map. apply map_ext.
    intros r. now destruct (N.eqb (Conversation.id r) cid). }
  split; [|split].
  - now rewrite Hids.
  - exact Hm.
  - apply (fk_ok_more_conversations d); [exact Hfk | |auto].
    intros c Hold.
    change (Sql.has_conversation c (Sql.update_world_model doc cid d) = true).
    now rewrite has_conversation_update.
Qed.

Lemma insert_webhook_schema wid u secret events d d' :
  schema_ok d -> Sql.insert_webhook wid u secret events d = inr d' -> schema_ok d'.
Proof.
  intros (Hc & Hm & Hfk) H. apply insert_webhook_inv in H. destruct H as [Ec Em].
  unfold schema_ok. rewrite Ec, Em. split; [exact Hc|]. split; [exact Hm|].
  unfold Sql.fk_ok, Sql.has_conversation in *. now rewrite Ec, Em.
Qed.

Lemma handlers_keep_schema w req : keeps schema_ok (handle w req).
Proof.
  destruct req; cbn [handle]; unfold fmap, analyze_media, get_conversation,
    share_conversation, create_webhook, add_message, health;
    keeps_steps;
    eauto using insert_conversation_schema, insert_message_schema,
                insert_webhook_schema.
  match goal with H : inr _ = inr _ |- _ => injection H as <- end.
  now apply update_world_model_schema.
Qed.

(** No request breaks the constraints of the schema. *)
Lemma schema_ok_after_request w req st resp st' :
  schema_ok (db st) -> app w req st = (resp, st') -> schema_ok (db st').
Proof.
  intros Hok H. apply app_inv in H. destruct H as (r & H & _).
  exact (handlers_keep_schema w req st r st' Hok H).
Qed.

(* ================================================================== *)
(** * Media classification *)



(* ================================================================== *)
(** * Sharing, and requests for a conversation that does not exist *)

(** C3.  With the database reachable, [POST /api/share] answers a known
    conversation with the share URL ["/share/" ++ id].  For an unknown one
    the handler's [raise HTTPException(status_code=404, message=...)] passes
    a keyword the constructor does not take: what is raised is a [TypeError],
    and the client receives a 500, not a 404. *)
Theorem share_conversation_responses w request st :
  pool_ok w ->
  db_fault w (statements_run st) = None ->
  (Sql.has_conversation (conversationId request) (db st) = true ->
   fst (app w (POST_share request) st)
   = mkResponse 200
       (ShareBody (mkShareResponse ("/share/" ++ Uuid.str (conversationId request)))) []) /\
  (Sql.has_conversation (conversationId request) (db st) = false ->
   status (fst (app w (POST_share request) st)) = 500%Z /\
   body (fst (app w (POST_share request) st))
   = DetailBody "HTTPException.__init__() got an unexpected keyword argument 'message'").
Proof.
  intros Hp Hf. unfold app, handle, fmap, bind.
  rewrite share_conversation_ok by assumption.
  destruct (Sql.select_conversation (conversationId request) (db st)) eqn:E.
  - split; [reflexivity|]. intros Hn.
    apply select_conversation_None in Hn. congruence.
  - apply select_conversation_None in E. split; [congruence|].
    intros _. split; reflexivity.
Qed.

Lemma demo_pool_ok : pool_ok Demo.world.
Proof. exists "postgresql://db/radar". repeat split. Defined.

Lemma share_conversation_responses_witness :
  status (fst (app Demo.world (POST_share (mkShareRequest 5%N)) Demo.analysed)) = 500%Z /\
  fst (app Demo.world (POST_share (mkShareRequest Demo.cid)) Demo.analysed)
  = mkResponse 200
      (ShareBody (mkShareResponse "/share/00000000-0000-0000-0000-000000000064")) [].
Proof.
  split.
  - apply (share_conversation_responses Demo.world (mkShareRequest 5%N) Demo.analysed
             demo_pool_ok eq_refl).
    vm_compute; reflexivity.
  - apply (share_conversation_responses Demo.world (mkShareRequest Demo.cid)
             Demo.analysed demo_pool_ok eq_refl).
    vm_compute; reflexivity.
Defined.

(** C4.  Continuing a conversation that is not in the [conversations] table
    writes nothing and does not succeed; with the database reachable the
    answer is the 404 "Conversation not found". *)
Theorem continue_unknown_conversation w cid message u st resp st' :
  Sql.has_conversation cid (db st) = false ->
  app w (POST_messages cid message u) st = (resp, st') ->
  db st' = db st /\
  status resp <> 200%Z /\
  (pool_ok w -> db_fault w (statements_run st) = None ->
   resp = mkResponse 404 (DetailBody "Conversation not found") []).
Proof.
  intros Hn H. apply select_conversation_None in Hn.
  split; [|split].
  - apply app_inv in H. destruct H as (r & H & _).
    cbn [handle] in H. apply fmap_inv in H. destruct H as (r0 & H & _).
    apply add_message_any in H. destruct H as (_ & _ & _ & [[Hd _] | Hs]); [exact Hd|].
    destruct Hs as (row & _ & _ & _ & Hrow & _). congruence.
  - intros S. destruct (app_messages_200 _ _ _ _ _ _ _ H S) as (out & Hok & _).
    apply add_message_ok_inv in Hok. destruct Hok as (row & _ & _ & _ & Hrow & _).
    congruence.
  - intros Hp Hf. unfold app, handle, fmap, bind in H.
    rewrite add_message_unknown in H by assumption.
    injection H as <- _. reflexivity.
Qed.

Lemma continue_unknown_conversation_witness :
  Sql.has_conversation 7%N (db Demo.analysed) = false /\
  fst (app Demo.world (POST_messages 7%N "more" None) Demo.analysed)
  = mkResponse 404 (DetailBody "Conversation not found") [] /\
  db (snd (app Demo.world (POST_messages 7%N "more" None) Demo.analysed))
  = db Demo.analysed.
Proof.
  destruct (continue_unknown_conversation Demo.world 7%N "more" None Demo.analysed
              _ _ eq_refl (surjective_pairing _)) as (Hd & _ & Hr).
  split; [reflexivity|]. split; [|exact Hd].
  apply Hr; [exact demo_pool_ok | reflexivity].
Defined.

(** C5.  With the database reachable, [GET /api/conversations/{id}] for an
    identifier with no conversation row and no message rows answers 200 with
    the empty list, and leaves the tables as they were. *)
Theorem get_unknown_conversation w cid st :
  pool_ok w ->
  db_fault w (statements_run st) = None ->
  Sql.has_conversation cid (db st) = false ->
  filter (Sql.of_conversation cid) (Sql.messages (db st)) = [] ->
  fst (app w (GET_conversation cid) st) = mkResponse 200 (MessagesBody []) [] /\
  db (snd (app w (GET_conversation cid) st)) = db st.
Proof.
  intros Hp Hf _ Hm. unfold app, handle, fmap, bind.
  rewrite get_conversation_ok by assumption.
  unfold Sql.select_messages. rewrite Hm. split; reflexivity.
Qed.

Lemma get_unknown_conversation_witness :
  Sql.has_conversation 7%N (db Demo.analysed) = false /\
  fst (app Demo.world (GET_conversation 7%N) Demo.analysed)
  = mkResponse 200 (MessagesBody []) [].
Proof.
  split; [reflexivity|].
  apply (get_unknown_conversation Demo.world 7%N Demo.analysed demo_pool_ok);
    reflexivity.
Defined.

(* ================================================================== *)
(** * Continuing a conversation *)

Lemma select_conversation_update doc cid d :
  Sql.select_conversation cid (Sql.update_world_model doc cid d) =
  option_map (Conversation.set_world_model (Some doc)) (Sql.select_conversation cid d).
Proof.
  unfold Sql.select_conversation, Sql.update_world_model. cbn.
  induction (Sql.conversations d) as [|r rows IH]; cbn; [reflexivity|].
  destruct (N.eqb (Conversation.id r) cid) eqn:E; cbn.
  - now rewrite E.
  - rewrite E. exact IH.
Qed.

Lemma updated_rows_hold doc cid d row :
  In row (Sql.conversations (Sql.update_world_model doc cid d)) ->
  Conversation.id row = cid ->
  Conversation.world_model row = Some doc.
Proof.
  unfold Sql.update_world_model. cbn. intros Hin Hid.
  apply in_map_iff in Hin. destruct Hin as (r & <- & _).
  destruct (N.eqb (Conversation.id r) cid) eqn:E; [reflexivity|].
  apply N.eqb_neq in E. contradiction.
Qed.

Lemma updated_rows_frame doc cid rows :
  Forall2 (fun r r' => same_but_world_model r r' /\ (Conversation.id r <> cid -> r' = r))
    rows
    (map (fun r => if N.eqb (Conversation.id r) cid
                   then Conversation.set_world_model (Some doc) r else r) rows).
Proof.
  induction rows as [|r rows IH]; cbn; constructor; [|exact IH].
  split; [apply same_but_world_model_update|].
  intros Hne. apply N.eqb_neq in Hne. now rewrite Hne.
Qed.

(** C1.  A successful continuation appends exactly two message rows to the
    table, the user's with the given text and then the assistant's with the
    LLM's response and follow-up, and stores the document the LLM returned as
    the conversation's world model: at every path the stored document holds
    what the LLM's document holds, so whatever the LLM's document lacks is
    absent after the call, whatever the old one held. *)
Theorem continuation_appends_and_replaces w cid message u st resp st' :
  app w (POST_messages cid message u) st = (resp, st') ->
  status resp = 200%Z ->
  exists upd mid1 mid2 t1 t2,
    let ai := ai_message_of (upd_response upd) (upd_follow_up upd) in
    let doc := WM.dict (updated_world_model upd) in
    (exists prompt, llm_continue w prompt = inr upd) /\
    Sql.has_conversation cid (db st) = true /\
    Sql.messages (db st') =
      (Sql.messages (db st) ++
         [user_row mid1 cid message t1; assistant_row mid2 cid ai t2])%list /\
    body resp = NewMessagesBody [ NewMessage.mk (Uuid.str mid1) "user" message;
                                  NewMessage.mk (Uuid.str mid2) "assistant" ai ] /\
    stored_world_model cid (db st') = Some doc /\
    (forall row, In row (Sql.conversations (db st')) -> Conversation.id row = cid ->
                 Conversation.world_model row = Some doc) /\
    (forall path, stored_at cid path (db st') = json_path path doc) /\
    (forall path, json_path path doc = None -> stored_at cid path (db st') = None).
Proof.
  intros H H200.
  destruct (app_messages_200 _ _ _ _ _ _ _ H H200) as (out & Hok & ->).
  apply add_message_ok_inv in Hok.
  destruct Hok as (row & wm & nc & upd & Hrow & Hload & Hllm & -> & Hdb).
  cbv zeta in *.
  assert (Hstored : stored_world_model cid (db st')
                    = Some (WM.dict (updated_world_model upd))).
  { unfold stored_world_model. rewrite Hdb.
    change (Sql.select_conversation cid (Sql.mkDB ?c ?m ?h))
      with (find (fun r => N.eqb (Conversation.id r) cid) c).
    fold (Sql.select_conversation cid
            (Sql.update_world_model (WM.dict (updated_world_model upd)) cid (db st))).
    now rewrite select_conversation_update, Hrow. }
  assert (Hat : forall path, stored_at cid path (db st')
                             = json_path path (WM.dict (updated_world_model upd))).
  { intros path. unfold stored_at. now rewrite Hstored. }
  exists upd, (uuid4_at w (uuids_drawn st)), (uuid4_at w (S (uuids_drawn st))),
    (now w (3 + statements_run st)), (now w (4 + statements_run st)).
  split; [eauto|].
  split.
  { destruct (Sql.has_conversation cid (db st)) eqn:E; [reflexivity|].
    apply select_conversation_None in E. congruence. }
  split; [now rewrite Hdb|].
  split; [reflexivity|].
  split; [exact Hstored|].
  split.
  { rewrite Hdb. cbn [Sql.conversations]. intros r. apply updated_rows_hold. }
  split; [exact Hat|].
  intros path Hnone. now rewrite Hat.
Qed.

Lemma continuation_appends_and_replaces_witness :
  status (fst (app Demo.world (POST_messages Demo.cid "more" None) Demo.analysed)) = 200%Z /\
  stored_at Demo.cid ["context"; "radar"] (db Demo.analysed)
  = Some (JStr "tracks what is new") /\
  stored_at Demo.cid ["context"; "radar"]
    (db (snd (app Demo.world (POST_messages Demo.cid "more" None) Demo.analysed)))
  = None /\
  length (Sql.messages
            (db (snd (app Demo.world (POST_messages Demo.cid "more" None) Demo.analysed))))
  = 2 + length (Sql.messages (db Demo.analysed)).
Proof.
  destruct (continuation_appends_and_replaces Demo.world Demo.cid "more" None
              Demo.analysed _ _ (surjective_pairing _) eq_refl)
    as (upd & mid1 & mid2 & t1 & t2 & _ & _ & Hm & _ & _ & _ & Hat & _).
  split; [reflexivity|]. split; [reflexivity|]. split.
  - vm_compute. reflexivity.
  - rewrite Hm, length_app. cbn [length]. lia.
Defined.

(** C6.  No request removes or moves a conversation row, or changes any of
    its columns but [world_model]: every row is found at its place after the
    request.  A successful continuation leaves every row other than the
    target's identical and changes the target's in [world_model] alone, its
    [id], [url], [media_type], [user_insight], [ai_analysis] and [created_at]
    being as before. *)
Theorem conversations_change_only_in_world_model w req st resp st' :
  app w req st = (resp, st') ->
  (forall i r, nth_error (Sql.conversations (db st)) i = Some r ->
               exists r', nth_error (Sql.conversations (db st')) i = Some r' /\
                          same_but_world_model r r') /\
  (forall cid message u,
     req = POST_messages cid message u -> status resp = 200%Z ->
     Forall2 (fun r r' => same_but_world_model r r' /\
                          (Conversation.id r <> cid -> r' = r))
             (Sql.conversations (db st)) (Sql.conversations (db st'))).
Proof.
  intros H. split.
  - apply app_inv in H. destruct H as (r0 & H & _).
    apply handle_any in H. destruct H as (_ & _ & _ & (f & newc & Hc & Hf)).
    intros i r Hi. exists (f r). split; [|apply Hf].
    rewrite Hc, nth_error_app1.
    + now apply map_nth_error.
    + rewrite length_map. apply nth_error_Some. congruence.
  - intros cid message u -> H200.
    destruct (app_messages_200 _ _ _ _ _ _ _ H H200) as (out & Hok & _).
    apply add_message_ok_inv in Hok.
    destruct Hok as (row & wm & nc & upd & _ & _ & _ & _ & Hdb).
    cbv zeta in Hdb. rewrite Hdb. cbn [Sql.conversations Sql.update_world_model].
    apply updated_rows_frame.
Qed.

Lemma conversations_change_only_in_world_model_witness :
  status (fst (app Demo.world (POST_messages Demo.cid "more" None) Demo.analysed)) = 200%Z /\
  Forall2 (fun r r' => same_but_world_model r r' /\
                       (Conversation.id r <> Demo.cid -> r' = r))
    (Sql.conversations (db Demo.analysed))
    (Sql.conversations
       (db (snd (app Demo.world (POST_messages Demo.cid "more" None) Demo.analysed)))).
Proof.
  split; [reflexivity|].
  destruct (conversations_change_only_in_world_model Demo.world
              (POST_messages Demo.cid "more" None) Demo.analysed _ _
              (surjective_pairing _)) as [_ F].
  apply (F Demo.cid "more" None); reflexivity.
Defined.

(** C9.  Every request leaves the message rows it found where
    they were and as they were; what it adds comes after them, is a prefix of
    a (user, assistant) pair of one conversation, and has role "user" or
    "assistant".  A successful analysis or continuation adds exactly the
    pair, the user's row first; the other endpoints add nothing.  A request
    that fails may have added the user's row alone. *)
Theorem messages_are_appended_in_pairs w req st resp st' :
  app w req st = (resp, st') ->
  exists newm,
    Sql.messages (db st') = (Sql.messages (db st) ++ newm)%list /\
    Forall role_ok newm /\
    pair_prefix newm /\
    (status resp = 200%Z ->
     match req with
     | POST_analyze request =>
         exists mid1 mid2 cid text t1 t2,
           newm = [user_row mid1 cid (initialThought request) t1;
                   assistant_row mid2 cid text t2]
     | POST_messages cid message _ =>
         exists mid1 mid2 text t1 t2,
           newm = [user_row mid1 cid message t1; assistant_row mid2 cid text t2]
     | _ => newm = []
     end) /\
    match req with
    | POST_analyze _ | POST_messages _ _ _ => True
    | _ => newm = []
    end.
Proof.
  intros H.
  destruct (app_inv _ _ _ _ _ H) as (r0 & Hh & Hresp).
  pose proof (handle_any _ _ _ _ _ Hh) as (_ & _ & (newm & Hm & Hp) & _).
  exists newm. split; [exact Hm|]. split; [now apply pair_prefix_roles|].
  split; [exact Hp|].
  assert (same : db st' = db st -> newm = []).
  { intros E. rewrite E in Hm. rewrite <- (app_nil_r (Sql.messages (db st))) in Hm at 1.
    apply app_inv_head in Hm. now symmetry. }
  assert (same' : Sql.messages (db st') = Sql.messages (db st) -> newm = []).
  { intros E. rewrite E in Hm. rewrite <- (app_nil_r (Sql.messages (db st))) in Hm at 1.
    apply app_inv_head in Hm. now symmetry. }
  destruct req as [request | cid | request | u events secret | cid message u | ].
  - split; [|exact I]. intros H200.
    destruct (app_analyze_200 _ _ _ _ _ H H200) as (s & Hok & _).
    apply analyze_media_ok_inv in Hok.
    destruct Hok as (media & analysis & _ & _ & _ & _ & _ & Hdb). cbv zeta in Hdb.
    rewrite Hdb in Hm. cbn [Sql.messages] in Hm. apply app_inv_head in Hm. subst newm.
    eauto 10.
  - cbn [handle] in Hh. apply fmap_inv in Hh. destruct Hh as (r1 & Hh & _).
    apply get_conversation_any in Hh. destruct Hh as (_ & _ & Hd). auto.
  - cbn [handle] in Hh. apply fmap_inv in Hh. destruct Hh as (r1 & Hh & _).
    apply share_conversation_any in Hh. destruct Hh as (_ & _ & Hd). auto.
  - cbn [handle] in Hh. apply fmap_inv in Hh. destruct Hh as (r1 & Hh & _).
    apply create_webhook_any in Hh. destruct Hh as (_ & _ & _ & Hd). auto.
  - split; [|exact I]. intros H200.
    destruct (app_messages_200 _ _ _ _ _ _ _ H H200) as (out & Hok & _).
    apply add_message_ok_inv in Hok.
    destruct Hok as (row & wm & nc & upd & _ & _ & _ & _ & Hdb). cbv zeta in Hdb.
    rewrite Hdb in Hm. cbn [Sql.messages] in Hm. apply app_inv_head in Hm. subst newm.
    eauto 10.
  - cbn [handle] in Hh. apply fmap_inv in Hh. destruct Hh as (r1 & Hh & _).
    unfold health in Hh. apply ret_inv in Hh. destruct Hh as [_ ->]. auto.
Qed.

Lemma messages_are_appended_in_pairs_witness :
  exists newm,
    Sql.messages (db Demo.analysed) = (Sql.messages (db Demo.empty) ++ newm)%list /\
    Forall role_ok newm /\ length newm = 2.
Proof.
  destruct (messages_are_appended_in_pairs Demo.world (POST_analyze Demo.request)
              Demo.empty _ _ (surjective_pairing _))
    as (newm & Hm & Hr & _ & Hpair & _).
  exists newm. split; [exact Hm|]. split; [exact Hr|].
  destruct (Hpair eq_refl) as (m1 & m2 & c & text & t1 & t2 & ->). reflexivity.
Defined.

(** Without a transaction, an analysis that loses its last insert leaves the
    conversation and the user's row behind, and answers 500. *)
Example lone_user_row_after_fault :
  let (resp, st') := app Demo.flaky (POST_analyze Demo.request) Demo.empty in
  status resp = 500%Z /\
  Sql.messages (db st') = [user_row 101%N 100%N "my thought" 1%Z] /\
  Sql.has_conversation 100%N (db st') = true.
Proof. vm_compute. repeat split. Qed.

(** C9, counterexample to rows being created only in pairs.  The statements
    of an analysis are not in a transaction: when the insert of the
    assistant's row is lost to a fault of the server, the request answers
    500 and the table, empty before, holds the user's row and no other.
    What the request added is then neither nothing nor a (user, assistant)
    pair. *)
Lemma lone_user_row_is_no_pair :
  Sql.messages (db Demo.empty) = [] /\
  status (fst (app Demo.flaky (POST_analyze Demo.request) Demo.empty)) = 500%Z /\
  Sql.messages (db (snd (app Demo.flaky (POST_analyze Demo.request) Demo.empty)))
  = [user_row 101%N 100%N "my thought" 1%Z] /\
  ~ (exists newm,
       Sql.messages (db (snd (app Demo.flaky (POST_analyze Demo.request) Demo.empty)))
       = (Sql.messages (db Demo.empty) ++ newm)%list /\
       (newm = [] \/
        exists mid1 mid2 cid c1 c2 t1 t2,
          newm = [user_row mid1 cid c1 t1; assistant_row mid2 cid c2 t2])).
Proof.
  assert (E : Sql.messages
                (db (snd (app Demo.flaky (POST_analyze Demo.request) Demo.empty)))
              = [user_row 101%N 100%N "my thought" 1%Z]) by (vm_compute; reflexivity).
  split; [reflexivity|]. split; [vm_compute; reflexivity|]. split; [exact E|].
  rewrite E. intros (newm & Hm & Hp). cbn [Sql.messages db Demo.empty app] in Hm.
  change (Sql.messages (db Demo.empty)) with (@nil Message.row) in Hm.
  cbn [List.app] in Hm. subst newm.
  destruct Hp as [Hp | (mid1 & mid2 & cid & c1 & c2 & t1 & t2 & Hp)]; discriminate Hp.
Qed.

(** C7.  Whatever a handler raises reaches the client as a 500 whose body is
    [{detail: message}], the one exception being the 404 of a continuation
    whose conversation does not exist.  Nothing is tried twice: a request
    sends at most one page fetch, one LLM call and five statements. *)
Theorem errors_are_generic_failures w req st e st' :
  handle w req st = (Raise e, st') ->
  app w req st = (respond (Raise e), st') /\
  sent_at_most 5 st st' /\
  ((status (respond (Raise e)) = 500%Z /\
    exists msg, body (respond (Raise e)) = DetailBody msg) \/
   (respond (Raise e) = mkResponse 404 (DetailBody "Conversation not found") [] /\
    exists cid message u,
      req = POST_messages cid message u /\
      Sql.has_conversation cid (db st) = false)).
Proof.
  intros H. split; [unfold app; now rewrite H|].
  apply handle_any in H. destruct H as (Hs & He & _).
  split; [exact Hs|].
  destruct (He e eq_refl) as [G | [-> Hm]].
  - left. destruct G; cbn; eauto.
  - right. split; [reflexivity | exact Hm].
Qed.

Lemma errors_are_generic_failures_witness :
  app Demo.llm_down (POST_analyze Demo.request) Demo.empty
  = (mkResponse 500 (DetailBody "Connection error.") [],
     snd (app Demo.llm_down (POST_analyze Demo.request) Demo.empty)) /\
  sent_at_most 5 Demo.empty (snd (app Demo.llm_down (POST_analyze Demo.request) Demo.empty)).
Proof.
  destruct (errors_are_generic_failures Demo.llm_down (POST_analyze Demo.request)
              Demo.empty (HTTPException 500 "Connection error.")
              (snd (handle Demo.llm_down (POST_analyze Demo.request) Demo.empty)))
    as (Ha & Hs & _).
  - vm_compute. reflexivity.
  - split; [|exact Hs]. rewrite Ha. reflexivity.
Defined.

(** The stored document of [Demo.broken] lacks [summary] and does not load. *)
Example load_without_summary :
  WM.load (Some Demo.no_summary) = inl (WM.validation_error "summary").
Proof. reflexivity. Qed.

(** What [dict] writes, [load] reads back, for a context without repeated keys. *)
Example load_dict_roundtrip :
  WM.load (Some (WM.dict Demo.wm0)) = inr Demo.wm0.
Proof. reflexivity. Qed.

(** C10.  In a continuation no statement that writes is sent before the LLM
    call, and the tables change only if the stored world model was loaded,
    the optional URL was processed and the LLM returned.  So when the stored
    document does not load as a [WorldModel], or processing the new URL
    raises, or the LLM call fails, the request does not succeed and the
    database is as it was. *)
Theorem continuation_writes_come_last w cid message u st resp st' :
  app w (POST_messages cid message u) st = (resp, st') ->
  writes_follow_llm false (events_since st st') = true /\
  (db st' <> db st ->
   exists row wm new_content upd,
     Sql.select_conversation cid (db st) = Some row /\
     WM.load (Conversation.world_model row) = inr wm /\
     new_content_ok w u new_content /\
     llm_continue w (continue_conversation_prompt wm (history cid (db st)) new_content)
       = inr upd) /\
  ((exists row e, Sql.select_conversation cid (db st) = Some row /\
                  WM.load (Conversation.world_model row) = inl e) ->
   status resp <> 200%Z /\ db st' = db st) /\
  ((exists u' e s s', u = Some u' /\ PyStr.truthy u' = true /\
                      process_media w u' s = (Raise e, s')) ->
   status resp <> 200%Z /\ db st' = db st) /\
  ((forall row wm new_content,
      Sql.select_conversation cid (db st) = Some row ->
      WM.load (Conversation.world_model row) = inr wm ->
      new_content_ok w u new_content ->
      exists e, llm_continue w
                  (continue_conversation_prompt wm (history cid (db st)) new_content)
                = inl e) ->
   status resp <> 200%Z /\ db st' = db st).
Proof.
  intros H. apply app_inv in H. destruct H as (r & H & ->).
  cbn [handle] in H. apply fmap_inv in H. destruct H as (r0 & H & ->).
  apply add_message_any in H.
  destruct H as ((evs & Ht & _ & Hw) & He & _ & Hlast).
  assert (failed : (db st' = db st /\ exists e, r0 = Raise e) ->
                   status (respond match r0 with
                                   | Ok a => Ok (NewMessagesBody a)
                                   | Raise e => Raise e
                                   end) <> 200%Z /\ db st' = db st).
  { intros [Hd [e ->]]. split; [|exact Hd].
    destruct (He e eq_refl) as [G | [-> _]]; [destruct G|]; discriminate. }
  split; [now rewrite (events_since_ext _ _ _ Ht)|].
  split; [|split; [|split]].
  - intros Hne. destruct Hlast as [[Hd _] | Hs]; [contradiction | exact Hs].
  - intros (row & e & Hrow & Hload).
    destruct Hlast as [Hf | (row' & wm & nc & upd & Hrow' & Hload' & _)];
      [now apply failed|].
    congruence.
  - intros (u' & e & s & s' & -> & Htruthy & Hmedia).
    destruct Hlast as [Hf | (row' & wm & nc & upd & _ & _ & Hnc & _)];
      [now apply failed|].
    apply process_media_inv in Hmedia. destruct Hmedia as [Hmedia _].
    unfold new_content_ok in Hnc. rewrite Htruthy in Hnc.
    destruct Hnc as (m & Hm & _). congruence.
  - intros Hllm.
    destruct Hlast as [Hf | (row' & wm & nc & upd & Hrow' & Hload' & Hnc & Hupd)];
      [now apply failed|].
    destruct (Hllm row' wm nc Hrow' Hload' Hnc) as [e He']. congruence.
Qed.

Lemma continuation_writes_come_last_witness :
  status (fst (app Demo.world (POST_messages 9%N "more" None) Demo.broken)) <> 200%Z /\
  db (snd (app Demo.world (POST_messages 9%N "more" None) Demo.broken)) = db Demo.broken /\
  db (snd (app Demo.reader_down (POST_messages Demo.cid "more" (Some "https://e.com/x"))
             Demo.analysed)) = db Demo.analysed /\
  db (snd (app Demo.llm_down (POST_messages Demo.cid "more" None) Demo.analysed))
  = db Demo.analysed.
Proof.
  destruct (continuation_writes_come_last Demo.world 9%N "more" None Demo.broken
              _ _ (surjective_pairing _)) as (_ & _ & Hload & _ & _).
  destruct (continuation_writes_come_last Demo.reader_down Demo.cid "more"
              (Some "https://e.com/x") Demo.analysed
              _ _ (surjective_pairing _)) as (_ & _ & _ & Hfetch & _).
  destruct (continuation_writes_come_last Demo.llm_down Demo.cid "more" None
              Demo.analysed _ _ (surjective_pairing _)) as (_ & _ & _ & _ & Hllm).
  assert (L : status (fst (app Demo.world (POST_messages 9%N "more" None) Demo.broken))
              <> 200%Z /\
              db (snd (app Demo.world (POST_messages 9%N "more" None) Demo.broken))
              = db Demo.broken).
  { apply Hload. eexists. exists (WM.validation_error "summary").
    split; reflexivity. }
  split; [apply L|]. split; [apply L|]. split.
  - apply Hfetch.
    exists "https://e.com/x",
      (HTTPException 500 "Failed to process webpage: Max retries exceeded"),
      Demo.analysed,
      (log [EvHttpGet "https://r.jina.ai/https://e.com/x"] Demo.analysed).
    repeat split; reflexivity.
  - apply Hllm. intros row wm nc _ _ _. eexists. reflexivity.
Defined.

(* ================================================================== *)
(** * Analysis followed by a read *)





(** With a clock that runs backwards the assistant's row sorts first. *)
Example assistant_first_when_clock_runs_backwards :
  let st1 := snd (app Demo.backwards (POST_analyze Demo.request) Demo.empty) in
  map Message.role
      (Sql.select_messages Demo.cid (db st1))
  = ["assistant"; "user"].
Proof. vm_compute. reflexivity. Qed.

(* ================================================================== *)
(** * The migration environment and the migration *)

Lemma drop_append (p s : string) : PyReplace.drop (String.length p) (p ++ s) = s.
Proof. induction p as [|c p IH]; cbn; auto. Qed.

Lemma replace1_prefix (old new rest : string) :
  PyReplace.replace1 old new (old ++ rest) = new ++ rest.
Proof.
  assert (H : PyStr.startswith old (old ++ rest) = true)
    by (apply startswith_iff; now exists rest).
  destruct old as [|c old]; cbn in *.
  - destruct rest; reflexivity.
  - rewrite H. cbn. now rewrite drop_append.
Qed.

(** X1.  [get_url] gives the value of [DATABASE_URL], or the empty string when
    it is unset, with a leading [postgres://] rewritten to [postgresql://] and
    nothing else changed: an occurrence of [postgres://] further on stays.
    What it returns never starts with [postgres://]. *)
Theorem get_url_normalises_scheme w :
  (forall rest, getenv_DATABASE_URL w = Some ("postgres://" ++ rest) ->
                get_url w = "postgresql://" ++ rest) /\
  (forall u, getenv_DATABASE_URL w = Some u ->
             PyStr.startswith "postgres://" u = false -> get_url w = u) /\
  (getenv_DATABASE_URL w = None -> get_url w = "") /\
  PyStr.startswith "postgres://" (get_url w) = false.
Proof.
  assert (pre : forall rest, getenv_DATABASE_URL w = Some ("postgres://" ++ rest) ->
                             get_url w = "postgresql://" ++ rest).
  { intros rest E. unfold get_url. rewrite E.
    replace (PyStr.startswith "postgres://" ("postgres://" ++ rest)) with true
      by (symmetry; apply startswith_iff; now exists rest).
    apply (replace1_prefix "postgres://" "postgresql://" rest). }
  split; [exact pre|]. split; [|split].
  - intros u E Hu. unfold get_url. now rewrite E, Hu.
  - intros E. unfold get_url. now rewrite E.
  - destruct (getenv_DATABASE_URL w) as [u|] eqn:E.
    + destruct (PyStr.startswith "postgres://" u) eqn:Hu.
      * apply startswith_iff in Hu. destruct Hu as [rest ->].
        rewrite (pre rest eq_refl). reflexivity.
      * unfold get_url. now rewrite E, Hu.
    + unfold get_url. rewrite E. reflexivity.
Qed.

Lemma get_url_normalises_scheme_witness :
  get_url (mkWorld (Some "postgres://u:p@db/radar?opt=postgres://x")
             (create_pool Demo.world) None (db_fault Demo.world) (now Demo.world)
             (uuid4_at Demo.world) (requests_get_text Demo.world)
             (urlparse_path Demo.world) (llm_analyze Demo.world)
             (llm_continue Demo.world))
  = "postgresql://u:p@db/radar?opt=postgres://x".
Proof.
  destruct (get_url_normalises_scheme
              (mkWorld (Some "postgres://u:p@db/radar?opt=postgres://x")
                 (create_pool Demo.world) None (db_fault Demo.world) (now Demo.world)
                 (uuid4_at Demo.world) (requests_get_text Demo.world)
                 (urlparse_path Demo.world) (llm_analyze Demo.world)
                 (llm_continue Demo.world))) as (H & _).
  exact (H "u:p@db/radar?opt=postgres://x" eq_refl).
Defined.

Lemma has_table_app name (c1 c2 : Schema.catalog) :
  Schema.has_table name (c1 ++ c2)%list
  = Schema.has_table name c1 || Schema.has_table name c2.
Proof. unfold Schema.has_table. apply existsb_app. Qed.

Lemma filter_absent name (c : Schema.catalog) :
  Schema.has_table name c = false ->
  filter (fun t => negb (String.eqb (Schema.tbl_name t) name)) c = c.
Proof.
  unfold Schema.has_table. induction c as [|t c IH]; cbn; [reflexivity|].
  intros H. apply orb_false_iff in H. destruct H as [Ht Hc].
  rewrite Ht. cbn. now rewrite IH.
Qed.

Lemma closed_not_referenced name c :
  Schema.closed c = true -> Schema.has_table name c = false ->
  Schema.referenced name c = false.
Proof.
  unfold Schema.closed, Schema.referenced. intros Hc Hn.
  apply not_true_is_false. intros Hr.
  apply existsb_exists in Hr. destruct Hr as (t & Ht & Hfk).
  apply existsb_exists in Hfk. destruct Hfk as (fk & Hin & E).
  apply String.eqb_eq in E.
  rewrite forallb_forall in Hc. specialize (Hc t Ht).
  rewrite forallb_forall in Hc. specialize (Hc fk Hin).
  congruence.
Qed.

Lemma referenced_app name (c1 c2 : Schema.catalog) :
  Schema.referenced name (c1 ++ c2)%list
  = Schema.referenced name c1 || Schema.referenced name c2.
Proof. unfold Schema.referenced. apply existsb_app. Qed.

(** X2.  On a catalog that holds neither a [conversations] nor a [messages]
    table, [upgrade] succeeds and adds exactly the two tables [models.py]
    declares, [conversations] first.  If no table of the catalog has a dangling
    foreign key, [downgrade] then gives the catalog back as it was. *)
Theorem upgrade_then_downgrade c :
  Schema.has_table "conversations" c = false ->
  Schema.has_table "messages" c = false ->
  Migration.upgrade c = inr (c ++ Models.metadata)%list /\
  (Schema.closed c = true -> Migration.downgrade (c ++ Models.metadata)%list = inr c).
Proof.
  intros Hc Hm. split.
  - unfold Migration.upgrade, Schema.create_table.
    cbn [Schema.tbl_name Migration.conversations Migration.messages Schema.foreign_keys].
    rewrite Hc. cbn [forallb].
    rewrite has_table_app, Hm. cbn.
    rewrite has_table_app. cbn. rewrite orb_true_r.
    now rewrite <- app_assoc.
  - intros Hclosed.
    pose proof (closed_not_referenced _ _ Hclosed Hc) as Rc.
    pose proof (closed_not_referenced _ _ Hclosed Hm) as Rm.
    unfold Migration.downgrade, Schema.drop_table.
    rewrite has_table_app. cbn [negb Models.metadata].
    replace (Schema.has_table "messages" [Models.Conversation; Models.Message])
      with true by reflexivity.
    rewrite orb_true_r. cbn [negb].
    rewrite filter_app, (filter_absent _ _ Hm). cbn [filter Schema.tbl_name Models.Conversation Models.Message].
    cbn [String.eqb Ascii.eqb Bool.eqb negb].
    rewrite referenced_app, Rm. cbn.
    rewrite has_table_app. cbn. rewrite orb_true_r. cbn.
    rewrite filter_app, (filter_absent _ _ Hc). cbn.
    rewrite app_nil_r, Rc. reflexivity.
Qed.

Lemma upgrade_then_downgrade_witness :
  Migration.upgrade [] = inr Models.metadata /\
  Migration.downgrade Models.metadata = inr [].
Proof.
  destruct (upgrade_then_downgrade [] eq_refl eq_refl) as [U D].
  split; [exact U | exact (D eq_refl)].
Defined.

(** X3.  [upgrade] raises when one of its two table names is taken, and on the
    migrated catalog the tables can only be dropped in the order [downgrade]
    uses: dropping [conversations] first is refused, because [messages] refers
    to it. *)
Theorem migration_order_matters c :
  (Schema.has_table "conversations" c = true \/
   (Schema.has_table "messages" c = true)) ->
  (exists e, Migration.upgrade c = inl e) /\
  forall c0,
    Schema.has_table "conversations" c0 = false ->
    exists e, Schema.drop_table "conversations" (c0 ++ Models.metadata)%list = inl e.
Proof.
  intros Htaken.
  assert (fails : exists e, Migration.upgrade c = inl e).
  { unfold Migration.upgrade, Schema.create_table.
    cbn [Schema.tbl_name Migration.conversations Migration.messages Schema.foreign_keys].
    destruct (Schema.has_table "conversations" c) eqn:Hc; [eauto|].
    destruct Htaken as [H | Hm]; [discriminate|].
    cbn [forallb]. rewrite has_table_app, Hm. cbn. eauto. }
  split; [exact fails|].
  intros c0 Hc0. unfold Schema.drop_table.
    rewrite has_table_app. cbn [negb].
    replace (Schema.has_table "conversations" Models.metadata) with true by reflexivity.
    rewrite orb_true_r. cbn [negb].
    rewrite filter_app, (filter_absent _ _ Hc0). cbn [filter Models.metadata].
    cbn. rewrite referenced_app. cbn. rewrite orb_true_r. eauto.
Qed.

Lemma migration_order_matters_witness :
  (exists e, Migration.upgrade Models.metadata = inl e) /\
  (exists e, Schema.drop_table "conversations" Models.metadata = inl e).
Proof.
  destruct (migration_order_matters Models.metadata (or_introl eq_refl)) as (U & D).
  split; [exact U | exact (D [] eq_refl)].
Defined.

(* ================================================================== *)
(** * Loading and storing a world model *)

Lemma get_set {V} (k k' : string) (v : V) d :
  PyDict.get k (PyDict.set k' v d) = if String.eqb k k' then Some v else PyDict.get k d.
Proof.
  induction d as [|[k0 v0] d IH]; cbn; [reflexivity|].
  destruct (String.eqb k' k0) eqn:E0; cbn.
  - apply String.eqb_eq in E0. subst k0. now destruct (String.eqb k k').
  - rewrite IH. destruct (String.eqb k k') eqn:E; [|reflexivity].
    apply String.eqb_eq in E. subst k'. now rewrite E0.
Qed.

Lemma get_fold_set {V} (k : string) (members : list (string * V)) acc :
  PyDict.get k (fold_left (fun d kv => PyDict.set (fst kv) (snd kv) d) members acc)
  = match last_member k members with
    | Some v => Some v
    | None => PyDict.get k acc
    end.
Proof.
  revert acc. induction members as [|[k1 v1] rest IH]; intros acc; cbn; [reflexivity|].
  rewrite IH, get_set. destruct (last_member k rest); [reflexivity|].
  now destruct (String.eqb k k1).
Qed.

(** A document holds for a key what its last member with that key holds. *)
Lemma get_of_members {V} (k : string) (members : list (string * V)) :
  PyDict.get k (PyDict.of_members members) = last_member k members.
Proof.
  unfold PyDict.of_members. rewrite get_fold_set. now destruct (last_member k members).
Qed.

Lemma last_member_filter {V} (k : string) (q : string * V -> bool) members :
  (forall v, q (k, v) = true) ->
  last_member k (filter q members) = last_member k members.
Proof.
  intros Hq. induction members as [|[k1 v1] rest IH]; cbn; [reflexivity|].
  destruct (q (k1, v1)) eqn:E; cbn; rewrite IH; [reflexivity|].
  destruct (last_member k rest); [reflexivity|].
  destruct (String.eqb k k1) eqn:Ek; [|reflexivity].
  apply String.eqb_eq in Ek. subst k1. rewrite Hq in E. discriminate.
Qed.

Lemma set_fresh {V} (k : string) (v : V) d :
  ~ In k (PyDict.keys d) -> PyDict.set k v d = (d ++ [(k, v)])%list.
Proof.
  induction d as [|[k0 v0] d IH]; cbn; [reflexivity|].
  intros Hn. destruct (String.eqb k k0) eqn:E.
  - apply String.eqb_eq in E. subst k0. tauto.
  - rewrite IH; [reflexivity | tauto].
Qed.

Lemma fold_set_distinct {V} (members acc : list (string * V)) :
  NoDup (PyDict.keys (acc ++ members)%list) ->
  fold_left (fun d kv => PyDict.set (fst kv) (snd kv) d) members acc
  = (acc ++ members)%list.
Proof.
  revert acc. induction members as [|[k v] rest IH]; intros acc Hnd; cbn.
  - now rewrite app_nil_r.
  - assert (Hk : ~ In k (PyDict.keys acc)).
    { unfold PyDict.keys in *. rewrite map_app in Hnd. cbn in Hnd.
      apply NoDup_remove_2 in Hnd. intros Hin. apply Hnd. apply in_or_app. now left. }
    rewrite (set_fresh k v acc Hk).
    rewrite IH; rewrite <- app_assoc; [reflexivity | exact Hnd].
Qed.

(** [json.loads] gives back a dict whose keys are distinct as it was written. *)
Lemma of_members_distinct {V} (d : list (string * V)) :
  NoDup (PyDict.keys d) -> PyDict.of_members d = d.
Proof. intros H. unfold PyDict.of_members. now rewrite fold_set_distinct. Qed.

Lemma as_str_list_map l : WM.as_str_list (map JStr l) = Some l.
Proof. induction l as [|s l IH]; cbn; [reflexivity | now rewrite IH]. Qed.

Lemma as_str_dict_map d :
  WM.as_str_dict (map (fun kv => (fst kv, JStr (snd kv))) d) = Some d.
Proof.
  induction d as [|[k v] d IH]; cbn; [reflexivity | now rewrite IH].
Qed.

Lemma as_str_list_inv items l : WM.as_str_list items = Some l -> items = map JStr l.
Proof.
  revert l. induction items as [|j items IH]; cbn; intros l H.
  - injection H as <-. reflexivity.
  - destruct j; try discriminate. cbn in H.
    destruct (WM.as_str_list items) as [l'|]; [|discriminate].
    injection H as <-. cbn. now rewrite (IH l' eq_refl).
Qed.

(** X4.  What [WorldModel.dict] writes, loading reads back: for a world model
    whose context has distinct keys, as every Python dict has, the document
    [json.dumps(wm.dict())] stores loads as the same world model. *)
Theorem load_dict_round_trip wm :
  context_keys_distinct wm ->
  WM.load (Some (WM.dict wm)) = inr wm.
Proof.
  intros Hctx. destruct wm as [ctx tps qs sm]. unfold context_keys_distinct in Hctx.
  cbn [context] in Hctx.
  unfold WM.load, WM.dict. cbn [context topics questions summary].
  unfold WM.validate, WM.field_context, WM.field_str_list, WM.field_summary.
  rewrite !get_of_members. cbn [last_member String.eqb Ascii.eqb Bool.eqb].
  rewrite !as_str_list_map. cbn [WM.as_str].
  destruct ctx as [d|]; [|reflexivity].
  rewrite of_members_distinct.
  - now rewrite as_str_dict_map.
  - unfold PyDict.keys. rewrite map_map. cbn [fst]. apply (Hctx d eq_refl).
Qed.

Lemma load_dict_round_trip_witness :
  context_keys_distinct Demo.wm1 /\ WM.load (Some (WM.dict Demo.wm1)) = inr Demo.wm1.
Proof.
  assert (H : context_keys_distinct Demo.wm1).
  { intros d E. injection E as <-. repeat constructor; cbn; tauto. }
  split; [exact H | exact (load_dict_round_trip Demo.wm1 H)].
Defined.

(** The four fields read the same from a document and from what is left of it
    when the members under other keys are dropped. *)
Lemma fields_ignore_other_members members :
  WM.field_context (PyDict.of_members (filter is_field members))
  = WM.field_context (PyDict.of_members members) /\
  WM.field_str_list "topics" (PyDict.of_members (filter is_field members))
  = WM.field_str_list "topics" (PyDict.of_members members) /\
  WM.field_str_list "questions" (PyDict.of_members (filter is_field members))
  = WM.field_str_list "questions" (PyDict.of_members members) /\
  WM.field_summary (PyDict.of_members (filter is_field members))
  = WM.field_summary (PyDict.of_members members).
Proof.
  unfold WM.field_context, WM.field_str_list, WM.field_summary.
  rewrite !get_of_members.
  rewrite !(last_member_filter _ is_field) by (intros v; reflexivity).
  repeat split.
Qed.

(** X5.  Loading a stored document looks at four keys only: members under any
    other key can be added or removed without changing whether the document
    loads, nor the world model it loads as.  (Nothing is said of the text of
    the validation error, in which pydantic quotes its input.) *)
Theorem load_ignores_other_members members :
  (forall wm,
     WM.load (Some (JObj members)) = inr wm <->
     WM.load (Some (JObj (filter is_field members))) = inr wm) /\
  ((exists e, WM.load (Some (JObj members)) = inl e) <->
   (exists e, WM.load (Some (JObj (filter is_field members))) = inl e)).
Proof.
  destruct (fields_ignore_other_members members) as (Ec & Et & Eq & Es).
  unfold WM.load, WM.validate. rewrite Ec, Et, Eq, Es. clear Ec Et Eq Es.
  destruct (WM.field_context (PyDict.of_members members)) as [c|];
    [destruct (WM.field_str_list "topics" (PyDict.of_members members)) as [t|];
     [destruct (WM.field_str_list "questions" (PyDict.of_members members)) as [q|];
      [destruct (WM.field_summary (PyDict.of_members members)) as [sm|]|]|]|].
  all: split; [intros wm; split; intros H; first [exact H | discriminate H]
              | split; intros [e H]; first [discriminate H | eexists; reflexivity]].
Qed.

(** X6.  A stored value loads only if it is an object whose (last) [summary]
    member is a string, which becomes the summary.  An absent [topics],
    [questions] or [context] loads as the empty list or dict and a null
    [context] as [None]; a present one holds exactly what is loaded. *)
Theorem load_requirements column wm :
  WM.load column = inr wm ->
  exists members,
    column = Some (JObj members) /\
    last_member "summary" members = Some (JStr (summary wm)) /\
    match last_member "topics" members with
    | None => topics wm = []
    | Some j => j = JArr (map JStr (topics wm))
    end /\
    match last_member "questions" members with
    | None => questions wm = []
    | Some j => j = JArr (map JStr (questions wm))
    end /\
    match last_member "context" members with
    | None => context wm = Some []
    | Some JNull => context wm = None
    | Some (JObj obj) => WM.as_str_dict (PyDict.of_members obj) = context wm
    | Some _ => False
    end.
Proof.
  unfold WM.load. destruct column as [[| | | | |members]|]; try discriminate.
  unfold WM.validate, WM.field_context, WM.field_str_list, WM.field_summary.
  rewrite !get_of_members. intros H. exists members. split; [reflexivity|].
  repeat (match type of H with
          | context [match ?x with _ => _ end] => destruct x eqn:?
          end; cbn [option_map WM.as_str] in H; try discriminate H).
  injection H as <-. cbn [summary topics questions context].
  split; [|split; [|split]].
  - destruct (last_member "summary" members) as [[| | |s'| |]|]; try discriminate.
    cbn in *. congruence.
  - destruct (last_member "topics" members) as [[| | | |items|]|]; try discriminate.
    + match goal with E : WM.as_str_list _ = Some _ |- _ =>
        apply as_str_list_inv in E; now subst end.
    + congruence.
  - destruct (last_member "questions" members) as [[| | | |items|]|]; try discriminate.
    + match goal with E : WM.as_str_list _ = Some _ |- _ =>
        apply as_str_list_inv in E; now subst end.
    + congruence.
  - destruct (last_member "context" members) as [[| | | | |obj]|]; try discriminate.
    + congruence.
    + destruct (WM.as_str_dict (PyDict.of_members obj)); cbn in *; congruence.
    + congruence.
Qed.

Lemma load_requirements_witness :
  exists members,
    Some (WM.dict Demo.wm0) = Some (JObj members) /\
    last_member "summary" members = Some (JStr "a first summary").
Proof.
  destruct (load_requirements (Some (WM.dict Demo.wm0)) Demo.wm0 eq_refl)
    as (members & E & Hs & _).
  exists members. split; [exact E | exact Hs].
Defined.

(* ================================================================== *)
(** * Reading a conversation in timestamp order *)

Lemma ts_le_total a b : Sql.ts_le a b = false -> Sql.ts_le b a = true.
Proof.
  destruct a as [x|], b as [y|]; cbn; try discriminate; try reflexivity.
  intros H. apply Z.leb_gt in H. apply Z.leb_le. lia.
Qed.

Lemma insert_by_timestamp_perm m l :
  Permutation (Sql.insert_by_timestamp m l) (m :: l).
Proof.
  induction l as [|x l IH]; cbn; [reflexivity|].
  destruct (Sql.ts_le _ _); [reflexivity|].
  rewrite IH. apply perm_swap.
Qed.

Lemma order_by_timestamp_perm l : Permutation (Sql.order_by_timestamp l) l.
Proof.
  unfold Sql.order_by_timestamp. induction l as [|x l IH]; cbn; [reflexivity|].
  rewrite insert_by_timestamp_perm. now constructor.
Qed.

Lemma insert_by_timestamp_sorted m l :
  ts_sorted l -> ts_sorted (Sql.insert_by_timestamp m l).
Proof.
  unfold ts_sorted. induction l as [|x l IH]; cbn; intros Hs.
  - repeat constructor.
  - destruct (Sql.ts_le (Message.timestamp m) (Message.timestamp x)) eqn:E.
    + constructor; [exact Hs | constructor; exact E].
    + apply Sorted_inv in Hs. destruct Hs as [Hl Hhd].
      constructor; [now apply IH|].
      destruct l as [|y l]; cbn.
      * constructor. now apply ts_le_total.
      * destruct (Sql.ts_le (Message.timestamp m) (Message.timestamp y)).
        -- constructor. now apply ts_le_total.
        -- apply HdRel_inv in Hhd. now constructor.
Qed.

Lemma order_by_timestamp_sorted l : ts_sorted (Sql.order_by_timestamp l).
Proof.
  unfold Sql.order_by_timestamp. induction l as [|x l IH]; cbn.
  - constructor.
  - now apply insert_by_timestamp_sorted.
Qed.

(** X7.  With the database reachable, [GET /api/conversations/{id}] answers
    200 with the rows of [messages] whose [conversation_id] is the identifier,
    each exactly once and no other, in ascending timestamp order with null
    timestamps last; rows without a conversation are never returned; and the
    tables are left as they were. *)
Theorem get_conversation_sorted w cid st :
  pool_ok w ->
  db_fault w (statements_run st) = None ->
  exists rows,
    fst (app w (GET_conversation cid) st) = mkResponse 200 (MessagesBody rows) [] /\
    Permutation rows (filter (Sql.of_conversation cid) (Sql.messages (db st))) /\
    ts_sorted rows /\
    (forall m, In m rows <->
               In m (Sql.messages (db st)) /\ Message.conversation_id m = Some cid) /\
    db (snd (app w (GET_conversation cid) st)) = db st.
Proof.
  intros Hp Hf. exists (Sql.select_messages cid (db st)).
  unfold app, handle, fmap, bind. rewrite get_conversation_ok by assumption.
  cbn [fst snd ret]. split; [reflexivity|].
  pose proof (order_by_timestamp_perm
                (filter (Sql.of_conversation cid) (Sql.messages (db st)))) as P.
  split; [exact P|]. split; [apply order_by_timestamp_sorted|]. split; [|reflexivity].
  intros m. unfold Sql.select_messages. split.
  - intros Hin. apply (Permutation_in _ P) in Hin. apply filter_In in Hin.
    destruct Hin as [Hin Hof]. split; [exact Hin|].
    unfold Sql.of_conversation in Hof.
    destruct (Message.conversation_id m) as [c|]; [|discriminate].
    apply N.eqb_eq in Hof. now subst.
  - intros [Hin Hc]. apply (Permutation_in _ (Permutation_sym P)).
    apply filter_In. split; [exact Hin|].
    unfold Sql.of_conversation. rewrite Hc. apply N.eqb_refl.
Qed.

Lemma get_conversation_sorted_witness :
  exists rows,
    fst (app Demo.world (GET_conversation Demo.cid) Demo.analysed)
    = mkResponse 200 (MessagesBody rows) [] /\
    ts_sorted rows /\ length rows = 2.
Proof.
  destruct (get_conversation_sorted Demo.world Demo.cid Demo.analysed
              demo_pool_ok eq_refl) as (rows & Hr & Hp & Hs & _).
  exists rows. split; [exact Hr|]. split; [exact Hs|].
  rewrite (Permutation_length Hp). reflexivity.
Defined.







(* ================================================================== *)
(** * What one request leaves for the next *)





Lemma media_result_type w u m :
  fst (media_result w u) = Ok m -> media_type_ok (Media.type m).
Proof.
  unfold media_result, media_type_ok.
  destruct (is_youtube_url u); [intros [= <-]; auto|].
  destruct (urlparse_path w u); [discriminate|].
  destruct (PyStr.endswith _ _); [intros [= <-]; auto|].
  destruct (requests_get_text w _); [discriminate|].
  intros [= <-]. auto.
Qed.

(** X10.  A successful analysis appends exactly one row to [conversations] and
    changes no other: the row holds the fresh identifier that is returned, the
    request's URL, the media type [process_media] gave it (one of "video",
    "podcast", "webpage"), the initial thought as [user_insight], the LLM's
    response as [ai_analysis], the LLM's world model as [world_model] and the
    server's time as [created_at]. *)
Theorem analysis_stores_conversation w request st resp st' :
  app w (POST_analyze request) st = (resp, st') ->
  status resp = 200%Z ->
  exists cid media analysis t,
    resp = mkResponse 200 (ConversationIdBody (Uuid.str cid)) [] /\
    process_media w (url request) st
    = (Ok media, log (snd (media_result w (url request))) st) /\
    media_type_ok (Media.type media) /\
    llm_analyze w (analyze_content_prompt (Media.content media) (initialThought request))
    = inr analysis /\
    Sql.has_conversation cid (db st) = false /\
    Sql.conversations (db st')
    = (Sql.conversations (db st)
         ++ [Conversation.mk cid (url request) (Media.type media)
               (Some (initialThought request)) (Some (response analysis))
               (Some (WM.dict (world_model analysis))) (Some t)])%list /\
    Sql.webhooks (db st') = Sql.webhooks (db st).
Proof.
  intros H H200.
  destruct (app_analyze_200 _ _ _ _ _ H H200) as (s & Hok & ->).
  apply analyze_media_ok_inv in Hok.
  destruct Hok as (media & analysis & Hmedia & Hllm & -> & Hnew & _ & Hdb).
  cbv zeta in *.
  exists (uuid4_at w (uuids_drawn st)), media, analysis, (now w (statements_run st)).
  split; [reflexivity|].
  split; [now rewrite process_media_run, Hmedia|].
  split; [now apply (media_result_type w (url request))|].
  split; [exact Hllm|]. split; [exact Hnew|].
  rewrite Hdb. split; reflexivity.
Qed.

Lemma analysis_stores_conversation_witness :
  exists cid,
    fst (app Demo.world (POST_analyze Demo.request) Demo.empty)
    = mkResponse 200 (ConversationIdBody (Uuid.str cid)) [] /\
    map Conversation.id
      (Sql.conversations (db (snd (app Demo.world (POST_analyze Demo.request) Demo.empty))))
    = [cid].
Proof.
  destruct (analysis_stores_conversation Demo.world Demo.request Demo.empty
              (fst (app Demo.world (POST_analyze Demo.request) Demo.empty))
              (snd (app Demo.world (POST_analyze Demo.request) Demo.empty))
              (surjective_pairing _) eq_refl)
    as (cid & media & analysis & t & Hresp & _ & _ & _ & _ & Hc & _).
  exists cid. split; [exact Hresp|]. rewrite Hc. reflexivity.
Defined.



(* ================================================================== *)
(** * Requests that fail part of the way *)

Lemma analyze_media_steps w request st r st' :
  analyze_media w request st = (r, st') ->
  (db st' = db st /\ exists e, r = Raise e) \/
  (exists media analysis,
     fst (media_result w (url request)) = Ok media /\
     llm_analyze w (analyze_content_prompt (Media.content media) (initialThought request))
     = inr analysis /\
     Sql.has_conversation (uuid4_at w (uuids_drawn st)) (db st) = false /\
     analysis_prefix (db st) (db st') /\
     db st' <> db st) \/
  (exists s, r = Ok s).
Proof.
  unfold analyze_media. intros H.
  walk.
  all: try (left; split; [reflexivity | eauto]; fail).
  all: try (right; right; eauto; fail).
  all: right; left; do 2 eexists;
       (split; [eassumption|]); (split; [eassumption|]); (split; [assumption|]).
  all: split;
       [ unfold analysis_prefix;
         first [ right; left; eexists; reflexivity
               | right; right; do 2 eexists;
                 (split; [|split; [|reflexivity]]); reflexivity ]
       | ].
  all: intros E; apply (f_equal (fun d => length (Sql.conversations d))) in E;
       cbn [Sql.conversations] in E; rewrite length_app in E; cbn in E; lia.
Qed.

(** X12.  An analysis that fails answers 500, and without a transaction it
    leaves what it had inserted: nothing, or the new conversation row, or that
    row and the user's message, never more.  When processing the URL raises,
    or the LLM call on the processed content fails, nothing was inserted. *)
Theorem failed_analysis_leaves_prefix w request st resp st' :
  app w (POST_analyze request) st = (resp, st') ->
  status resp <> 200%Z ->
  status resp = 500%Z /\
  analysis_prefix (db st) (db st') /\
  ((exists e, fst (process_media w (url request) st) = Raise e) \/
   (forall media, fst (process_media w (url request) st) = Ok media ->
                  exists e, llm_analyze w
                              (analyze_content_prompt (Media.content media)
                                 (initialThought request)) = inl e) ->
   db st' = db st).
Proof.
  intros H Hnot. apply app_inv in H. destruct H as (r & H & ->).
  cbn [handle] in H. apply fmap_inv in H. destruct H as (r0 & H & ->).
  pose proof (analyze_media_any _ _ _ _ _ H) as (_ & Hgen & _).
  apply analyze_media_steps in H.
  destruct r0 as [s | e]; [now contradiction Hnot|].
  split; [destruct (Hgen e eq_refl); reflexivity|].
  destruct H as [[Hd _] | [(media & analysis & Hm & Hllm & _ & Hpre & Hne) | [s Hs]]];
    [| |discriminate].
  - split; [rewrite Hd; now left | auto].
  - split; [exact Hpre|].
    rewrite process_media_run. cbn [fst].
    intros [[e' He'] | Hall]; [congruence|].
    destruct (Hall media Hm) as [e' He']. congruence.
Qed.

Lemma failed_analysis_leaves_prefix_witness :
  status (fst (app Demo.flaky (POST_analyze Demo.request) Demo.empty)) = 500%Z /\
  analysis_prefix (db Demo.empty)
    (db (snd (app Demo.flaky (POST_analyze Demo.request) Demo.empty))) /\
  db (snd (app Demo.llm_down (POST_analyze Demo.request) Demo.empty)) = db Demo.empty.
Proof.
  destruct (failed_analysis_leaves_prefix Demo.flaky Demo.request Demo.empty
              (fst (app Demo.flaky (POST_analyze Demo.request) Demo.empty))
              (snd (app Demo.flaky (POST_analyze Demo.request) Demo.empty))
              (surjective_pairing _)) as (H500 & Hpre & _).
  { vm_compute. discriminate. }
  destruct (failed_analysis_leaves_prefix Demo.llm_down Demo.request Demo.empty
              (fst (app Demo.llm_down (POST_analyze Demo.request) Demo.empty))
              (snd (app Demo.llm_down (POST_analyze Demo.request) Demo.empty))
              (surjective_pairing _)) as (_ & _ & Hsame).
  { vm_compute. discriminate. }
  split; [exact H500|]. split; [exact Hpre|].
  apply Hsame. right. intros media _. eexists. reflexivity.
Defined.

Lemma add_message_ok_fresh w cid message u st out st' :
  add_message w cid message u st = (Ok out, st') ->
  let mid1 := uuid4_at w (uuids_drawn st) in
  let mid2 := uuid4_at w (S (uuids_drawn st)) in
  Sql.has_message mid1 (db st) = false /\
  Sql.has_message mid2 (db st) = false /\
  mid1 <> mid2 /\
  uuids_drawn st' = 2 + uuids_drawn st.
Proof.
  unfold add_message. intros H.
  walk.
  all: cbv zeta.
  all: repeat match goal with
       | H : Sql.has_message _ _ = false |- _ =>
           unfold Sql.has_message in H;
           cbn [Sql.messages Sql.update_world_model] in H
       end.
  all: repeat match goal with
       | H : existsb _ (_ ++ _) = false |- _ =>
           rewrite existsb_app in H; apply orb_false_iff in H; destruct H
       end.
  all: unfold Sql.has_message.
  all: split; [assumption|]; split; [assumption|]; split; [|reflexivity].
  all: intros E;
       match goal with
       | H : existsb _ [_] = false |- _ =>
           cbn in H; rewrite E, N.eqb_refl in H; discriminate H
       end.
Qed.

(** X13.  The two identifiers a successful continuation returns are those of
    the two rows it inserted: both were unused in [messages] before, they
    differ from each other, and they are rendered as strings in the body in
    the order user, assistant. *)
Theorem continuation_returns_fresh_ids w cid message u st resp st' :
  app w (POST_messages cid message u) st = (resp, st') ->
  status resp = 200%Z ->
  exists mid1 mid2 text t1 t2,
    mid1 <> mid2 /\
    Sql.has_message mid1 (db st) = false /\
    Sql.has_message mid2 (db st) = false /\
    Sql.messages (db st')
    = (Sql.messages (db st)
         ++ [user_row mid1 cid message t1; assistant_row mid2 cid text t2])%list /\
    body resp = NewMessagesBody [ NewMessage.mk (Uuid.str mid1) "user" message;
                                  NewMessage.mk (Uuid.str mid2) "assistant" text ].
Proof.
  intros H H200.
  destruct (app_messages_200 _ _ _ _ _ _ _ H H200) as (out & Hok & ->).
  pose proof (add_message_ok_fresh _ _ _ _ _ _ _ Hok) as (F1 & F2 & Hne & _).
  apply add_message_ok_inv in Hok.
  destruct Hok as (row & wm & nc & upd & _ & _ & _ & -> & Hdb). cbv zeta in Hdb.
  do 5 eexists. split; [exact Hne|]. split; [exact F1|]. split; [exact F2|].
  split; [rewrite Hdb; reflexivity | reflexivity].
Qed.

Lemma continuation_returns_fresh_ids_witness :
  exists mid1 mid2,
    mid1 <> mid2 /\
    Sql.has_message mid1 (db Demo.analysed) = false /\
    Sql.has_message mid2 (db Demo.analysed) = false.
Proof.
  destruct (continuation_returns_fresh_ids Demo.world Demo.cid "more" None
              Demo.analysed
              (fst (app Demo.world (POST_messages Demo.cid "more" None) Demo.analysed))
              (snd (app Demo.world (POST_messages Demo.cid "more" None) Demo.analysed))
              (surjective_pairing _) eq_refl)
    as (mid1 & mid2 & text & t1 & t2 & Hne & F1 & F2 & _).
  exists mid1, mid2. auto.
Defined.

(* ================================================================== *)
(** * Webhooks, the pool and the endpoints that only read *)

Lemma insert_webhook_rows wid u secret events d d' :
  Sql.insert_webhook wid u secret events d = inr d' ->
  exists rows,
    Sql.webhooks d = Some rows /\
    d' = Sql.mkDB (Sql.conversations d) (Sql.messages d)
           (Some (rows ++ [Webhook.mk wid u secret events])%list).
Proof.
  unfold Sql.insert_webhook. destruct (Sql.webhooks d) as [rows|]; [|discriminate].
  intros H. injection H as <-. eauto.
Qed.

Lemma create_webhook_steps w u events secret st r st' :
  create_webhook w u events secret st = (r, st') ->
  (exists evs, trace st' = (evs ++ trace st)%list /\
               count is_http_get evs = 0 /\ count is_llm evs = 0) /\
  ((db st' = db st /\ exists e, r = Raise e /\ generic_failure e) \/
   (exists rows,
      Sql.webhooks (db st) = Some rows /\
      r = Ok (uuid4_at w (uuids_drawn st)) /\
      db st' = Sql.mkDB (Sql.conversations (db st)) (Sql.messages (db st))
                 (Some (rows ++ [Webhook.mk (uuid4_at w (uuids_drawn st))
                                   u secret events])%list))).
Proof.
  unfold create_webhook. intros H.
  walk.
  all: (split; [eexists; (split; [solve_ext | split; reflexivity])|]).
  all: try (left; split; [reflexivity | eexists; split; [reflexivity | solve_generic]];
            fail).
  right.
  match goal with
  | H : Sql.insert_webhook _ _ _ _ _ = inr _ |- _ =>
      apply insert_webhook_rows in H; destruct H as (rows & Hr & ->)
  end.
  exists rows. auto.
Qed.

(** X14.  Registering a webhook never touches [conversations] or [messages]
    and sends neither a page fetch nor an LLM call.  On a database that has
    only what the migration creates there is no [webhooks] relation, and the
    request answers 500 and changes nothing.  When it succeeds it has appended
    one row, with the identifier that it returns and the given URL, secret
    and events. *)
Theorem registering_a_webhook w u events secret st resp st' :
  app w (POST_webhooks u events secret) st = (resp, st') ->
  Sql.conversations (db st') = Sql.conversations (db st) /\
  Sql.messages (db st') = Sql.messages (db st) /\
  count is_http_get (events_since st st') = 0 /\
  count is_llm (events_since st st') = 0 /\
  (Sql.webhooks (db st) = None -> status resp = 500%Z /\ db st' = db st) /\
  (status resp = 200%Z ->
   exists wid rows,
     body resp = WebhookBody wid /\
     Sql.webhooks (db st) = Some rows /\
     Sql.webhooks (db st') = Some (rows ++ [Webhook.mk wid u secret events])%list).
Proof.
  intros H. apply app_inv in H. destruct H as (r & H & ->).
  cbn [handle] in H. apply fmap_inv in H. destruct H as (r0 & H & ->).
  apply create_webhook_steps in H.
  destruct H as ((evs & Ht & Hh & Hl) & Hcase).
  rewrite (events_since_ext _ _ _ Ht).
  assert (Hrev : forall p, count p (rev evs) = count p evs).
  { intros p. unfold count. apply Permutation_length.
    clear. induction evs as [|e evs IH]; [reflexivity|].
    cbn [rev]. rewrite filter_app. cbn [filter].
    destruct (p e).
    - rewrite <- Permutation_cons_append. now constructor.
    - now rewrite app_nil_r. }
  rewrite !Hrev.
  destruct Hcase as [[Hd (e & -> & G)] | (rows & Hrows & -> & Hd)].
  - rewrite Hd. repeat split; auto.
    + destruct G; reflexivity.
    + intros H200. destruct G; discriminate H200.
  - rewrite Hd. cbn [Sql.conversations Sql.messages Sql.webhooks].
    repeat split; auto; try congruence.
    intros _. exists (uuid4_at w (uuids_drawn st)), rows.
    split; [reflexivity|]. split; [exact Hrows | reflexivity].
Qed.

Lemma registering_a_webhook_witness :
  status (fst (app Demo.world (POST_webhooks "https://hook" ["done"] "s3cret")
                 Demo.analysed)) = 500%Z /\
  db (snd (app Demo.world (POST_webhooks "https://hook" ["done"] "s3cret") Demo.analysed))
  = db Demo.analysed.
Proof.
  destruct (registering_a_webhook Demo.world "https://hook" ["done"] "s3cret"
              Demo.analysed
              (fst (app Demo.world (POST_webhooks "https://hook" ["done"] "s3cret")
                      Demo.analysed))
              (snd (app Demo.world (POST_webhooks "https://hook" ["done"] "s3cret")
                      Demo.analysed))
              (surjective_pairing _)) as (_ & _ & _ & _ & Hnone & _).
  apply Hnone. reflexivity.
Defined.

Lemma get_db_pool_unset w st :
  (getenv_DATABASE_URL w = None \/ getenv_DATABASE_URL w = Some "") ->
  get_db_pool w st = (Raise (HTTPException 500 "Database configuration error"), st).
Proof. unfold get_db_pool. intros [-> | ->]; reflexivity. Qed.

Lemma fails_at_pool {A B} w (f : A -> B) (k : unit -> M A) st e :
  get_db_pool w st = (Raise e, st) ->
  fmap f (bind (get_db_pool w) k) st = (Raise e, st).
Proof. intros H. unfold fmap, bind. now rewrite H. Qed.

(** X15.  When [DATABASE_URL] is unset or empty, every endpoint but the health
    check answers 500 with the detail "Database configuration error" before
    doing anything: no statement, fetch or LLM call is sent and no UUID is
    drawn.  The health check answers 200 with status "ok" all the same. *)
Theorem without_database_url w req st :
  (getenv_DATABASE_URL w = None \/ getenv_DATABASE_URL w = Some "") ->
  app w req st =
  match req with
  | GET_health => (mkResponse 200 (StatusBody "ok") [], st)
  | _ => (mkResponse 500 (DetailBody "Database configuration error") [], st)
  end.
Proof.
  intros Hunset. pose proof (get_db_pool_unset w st Hunset) as Hp.
  destruct req; unfold app, handle, analyze_media, get_conversation,
    share_conversation, create_webhook, add_message;
    try (rewrite (fails_at_pool _ _ _ _ _ Hp)); reflexivity.
Qed.

Lemma without_database_url_witness :
  app (mkWorld None (create_pool Demo.world) None (db_fault Demo.world)
         (now Demo.world) (uuid4_at Demo.world) (requests_get_text Demo.world)
         (urlparse_path Demo.world) (llm_analyze Demo.world) (llm_continue Demo.world))
      (POST_analyze Demo.request) Demo.empty
  = (mkResponse 500 (DetailBody "Database configuration error") [], Demo.empty).
Proof.
  exact (without_database_url
           (mkWorld None (create_pool Demo.world) None (db_fault Demo.world)
              (now Demo.world) (uuid4_at Demo.world) (requests_get_text Demo.world)
              (urlparse_path Demo.world) (llm_analyze Demo.world)
              (llm_continue Demo.world))
           (POST_analyze Demo.request) Demo.empty (or_introl eq_refl)).
Defined.

Lemma get_conversation_reads w cid st r st' :
  get_conversation w cid st = (r, st') ->
  db st' = db st /\ uuids_drawn st' = uuids_drawn st /\
  (trace st' = trace st \/
   trace st' = EvSql (Sql.SelectMessages cid) :: trace st).
Proof.
  unfold get_conversation. intros H. walk.
  all: repeat split; auto.
Qed.

Lemma share_conversation_reads w request st r st' :
  share_conversation w request st = (r, st') ->
  db st' = db st /\ uuids_drawn st' = uuids_drawn st /\
  (trace st' = trace st \/
   trace st' = EvSql (Sql.SelectConversation (conversationId request)) :: trace st).
Proof.
  unfold share_conversation. intros H. walk.
  all: repeat split; auto.
Qed.

(** X16.  Reading a conversation, sharing one and the health check never
    write: whatever they answer, the tables are as before, no UUID was drawn,
    and at most one statement was sent, a SELECT. *)
Theorem reads_do_not_write w req st resp st' :
  match req with
  | GET_conversation _ | POST_share _ | GET_health => True
  | _ => False
  end ->
  app w req st = (resp, st') ->
  db st' = db st /\
  uuids_drawn st' = uuids_drawn st /\
  (events_since st st' = [] \/
   exists s, events_since st st' = [EvSql s] /\ Sql.is_write s = false).
Proof.
  intros Hreq H. apply app_inv in H. destruct H as (r & H & _).
  destruct req as [request | cid | request | u events secret | cid message u | ];
    try contradiction; cbn [handle] in H; apply fmap_inv in H;
    destruct H as (r0 & H & _).
  - apply get_conversation_reads in H. destruct H as (Hd & Hu & [Ht | Ht]).
    + split; [exact Hd|]. split; [exact Hu|]. left.
      now apply (events_since_ext st st' []).
    + split; [exact Hd|]. split; [exact Hu|]. right. eexists. split.
      * apply (events_since_ext st st' [_]). exact Ht.
      * reflexivity.
  - apply share_conversation_reads in H. destruct H as (Hd & Hu & [Ht | Ht]).
    + split; [exact Hd|]. split; [exact Hu|]. left.
      now apply (events_since_ext st st' []).
    + split; [exact Hd|]. split; [exact Hu|]. right. eexists. split.
      * apply (events_since_ext st st' [_]). exact Ht.
      * reflexivity.
  - unfold health in H. apply ret_inv in H. destruct H as [_ ->].
    split; [reflexivity|]. split; [reflexivity|]. left.
    now apply (events_since_ext st st []).
Qed.

Lemma reads_do_not_write_witness :
  db (snd (app Demo.world (POST_share (mkShareRequest Demo.cid)) Demo.analysed))
  = db Demo.analysed.
Proof.
  apply (reads_do_not_write Demo.world (POST_share (mkShareRequest Demo.cid))
           Demo.analysed
           (fst (app Demo.world (POST_share (mkShareRequest Demo.cid)) Demo.analysed))
           _ I (surjective_pairing _)).
Defined.

(* ================================================================== *)
(** * A continuation without a URL *)

Lemma count_rev p evs : count p (rev evs) = count p evs.
Proof.
  unfold count. apply Permutation_length.
  induction evs as [|e evs IH]; [reflexivity|].
  cbn [rev]. rewrite filter_app. cbn [filter].
  destruct (p e).
  - rewrite <- Permutation_cons_append. now constructor.
  - now rewrite app_nil_r.
Qed.

Lemma add_message_no_url w cid message st r st' :
  add_message w cid message None st = (r, st') ->
  exists evs,
    trace st' = (evs ++ trace st)%list /\
    count is_http_get evs = 0 /\
    Forall (fun e => forall prompt, e = EvLLM prompt -> length prompt = 2) evs.
Proof.
  unfold add_message. intros H.
  walk.
  all: eexists; (split; [solve_ext | split; [reflexivity|]]).
  all: repeat (apply Forall_cons;
               [ let p := fresh "p" in
                 let E := fresh "E" in
                 intros p E; try discriminate E; injection E as <-; reflexivity
               | ]);
       apply Forall_nil.
Qed.

(** X17.  An empty URL string counts as no URL.  Such a continuation behaves,
    in its answer and in everything it leaves, exactly as one without a URL:
    it sends no page fetch, and the prompt of any LLM call it makes has two
    messages, the system message and the one with the world model and the
    history, with no third message of new content. *)
Theorem continuation_without_url w cid message u st resp st' :
  u = None \/ u = Some "" ->
  app w (POST_messages cid message u) st = (resp, st') ->
  app w (POST_messages cid message None) st = (resp, st') /\
  count is_http_get (events_since st st') = 0 /\
  forall prompt, In (EvLLM prompt) (events_since st st') -> length prompt = 2.
Proof.
  intros Hu H.
  assert (H' : app w (POST_messages cid message None) st = (resp, st'))
    by (destruct Hu as [-> | ->]; exact H).
  split; [exact H'|].
  apply app_inv in H'. destruct H' as (r & H' & _).
  cbn [handle] in H'. apply fmap_inv in H'. destruct H' as (r0 & H' & _).
  apply add_message_no_url in H'. destruct H' as (evs & Ht & Hc & Hf).
  rewrite (events_since_ext _ _ _ Ht), count_rev.
  split; [exact Hc|].
  intros prompt Hin. apply in_rev in Hin.
  rewrite Forall_forall in Hf. exact (Hf _ Hin prompt eq_refl).
Qed.

Lemma continuation_without_url_witness :
  app Demo.world (POST_messages Demo.cid "more" (Some "")) Demo.analysed
  = app Demo.world (POST_messages Demo.cid "more" None) Demo.analysed /\
  count is_http_get
    (events_since Demo.analysed
       (snd (app Demo.world (POST_messages Demo.cid "more" (Some "")) Demo.analysed)))
  = 0.
Proof.
  destruct (continuation_without_url Demo.world Demo.cid "more" (Some "")
              Demo.analysed
              (fst (app Demo.world (POST_messages Demo.cid "more" (Some ""))
                      Demo.analysed))
              (snd (app Demo.world (POST_messages Demo.cid "more" (Some ""))
                      Demo.analysed))
              (or_intror eq_refl) (surjective_pairing _)) as (Heq & Hc & _).
  split; [|exact Hc].
  rewrite Heq. apply surjective_pairing.
Defined.

(* ================================================================== *)
(** * The constraints of the schema *)

(** X18.  Every request, whatever it answers, keeps what the schema of the
    migration enforces: identifiers are unique in [conversations] and in
    [messages], and the [conversation_id] of every message is the identifier
    of a conversation row. *)
Theorem requests_keep_schema w req st resp st' :
  schema_ok (db st) ->
  app w req st = (resp, st') ->
  schema_ok (db st').
Proof.
  intros Hok H. apply app_inv in H. destruct H as (r & H & _).
  exact (handlers_keep_schema w req st r st' Hok H).
Qed.

Lemma requests_keep_schema_witness :
  schema_ok (db Demo.empty) /\
  schema_ok (db (snd (app Demo.world (POST_messages Demo.cid "more" None)
                        (snd (app Demo.world (POST_analyze Demo.request) Demo.empty))))).
Proof.
  assert (H0 : schema_ok (db Demo.empty)).
  { split; [constructor|]. split; [constructor | reflexivity]. }
  split; [exact H0|].
  apply (requests_keep_schema Demo.world (POST_messages Demo.cid "more" None)
           (snd (app Demo.world (POST_analyze Demo.request) Demo.empty))
           (fst (app Demo.world (POST_messages Demo.cid "more" None)
                   (snd (app Demo.world (POST_analyze Demo.request) Demo.empty))))).
  - apply (requests_keep_schema Demo.world (POST_analyze Demo.request) Demo.empty
             (fst (app Demo.world (POST_analyze Demo.request) Demo.empty))
             _ H0 (surjective_pairing _)).
  - apply surjective_pairing.
Defined.

(* ================================================================== *)
(** * Identifiers as strings *)

Lemma string_app_assoc (a b c : string) : (a ++ b) ++ c = a ++ (b ++ c).
Proof. induction a as [|x a IH]; cbn; [reflexivity | now rewrite IH]. Qed.

Lemma string_app_length (a b : string) :
  String.length (a ++ b) = String.length a + String.length b.
Proof. induction a as [|x a IH]; cbn; [reflexivity | now rewrite IH]. Qed.

Lemma string_app_inv_head (p x y : string) : p ++ x = p ++ y -> x = y.
Proof.
  induction p as [|c p IH]; cbn; [auto|]. intros H. injection H as H. auto.
Qed.

Lemma hex_fixed_acc n v acc :
  Uuid.hex_fixed n v acc = Uuid.hex_fixed n v "" ++ acc.
Proof.
  revert v acc. induction n as [|n IH]; intros v acc; cbn; [reflexivity|].
  rewrite (IH _ (String _ acc)), (IH _ (String _ "")).
  rewrite string_app_assoc. reflexivity.
Qed.

Lemma hex_fixed_length n v : String.length (Uuid.hex_fixed n v "") = n.
Proof.
  revert v. induction n as [|n IH]; intros v; cbn; [reflexivity|].
  rewrite hex_fixed_acc, string_app_length, IH. cbn. lia.
Qed.

Lemma value_append a b acc :
  Unhex.value (a ++ b) acc = Unhex.value b (Unhex.value a acc).
Proof. revert acc. induction a as [|c a IH]; intros acc; cbn; auto. Qed.

Lemma digit_hex_digit d : (d < 16)%N -> Unhex.digit (Uuid.hex_digit d) = d.
Proof.
  intros H. destruct d as [|p]; [reflexivity|].
  do 4 (destruct p as [p|p|]; try reflexivity).
  all: exfalso; lia.
Qed.

Lemma value_hex_fixed n v acc :
  Unhex.value (Uuid.hex_fixed n v "") acc
  = (acc * 16 ^ N.of_nat n + v mod 16 ^ N.of_nat n)%N.
Proof.
  revert v acc. induction n as [|n IH]; intros v acc.
  - cbn [Uuid.hex_fixed Unhex.value N.of_nat]. rewrite N.pow_0_r, N.mod_1_r. lia.
  - cbn [Uuid.hex_fixed]. rewrite hex_fixed_acc, value_append, IH.
    cbn [Unhex.value].
    rewrite digit_hex_digit.
    2:{ change 15%N with (N.ones 4). rewrite N.land_ones.
        apply N.mod_lt. discriminate. }
    change 15%N with (N.ones 4). rewrite N.land_ones, N.shiftr_div_pow2.
    change (2 ^ 4)%N with 16%N.
    rewrite Nnat.Nat2N.inj_succ, N.pow_succ_r'.
    rewrite (N.Div0.mod_mul_r v 16 (16 ^ N.of_nat n)). lia.
Qed.

Lemma digits_str u : Unhex.digits (Uuid.str u) = Uuid.hex_fixed 32 u "".
Proof.
  unfold Uuid.str.
  pose proof (hex_fixed_length 32 u) as L.
  destruct (Uuid.hex_fixed 32 u "") as [|c h]; [discriminate|].
  do 31 (destruct h as [|? h]; [discriminate|]).
  destruct h; [|discriminate]. reflexivity.
Qed.

Lemma str_length u : String.length (Uuid.str u) = 36.
Proof.
  unfold Uuid.str.
  pose proof (hex_fixed_length 32 u) as L.
  destruct (Uuid.hex_fixed 32 u "") as [|c h]; [discriminate|].
  do 31 (destruct h as [|? h]; [discriminate|]).
  destruct h; [|discriminate]. reflexivity.
Qed.

(** X19.  The string of a 128-bit identifier has 36 characters and reads back
    as the identifier, so the identifier an analysis returns names its
    conversation and no other, and two conversations never share a share
    URL. *)
Theorem identifier_strings_round_trip a :
  (a < 2 ^ 128)%N ->
  Unhex.uuid (Uuid.str a) = a /\
  String.length (Uuid.str a) = 36 /\
  forall b, (b < 2 ^ 128)%N ->
            "/share/" ++ Uuid.str a = "/share/" ++ Uuid.str b -> a = b.
Proof.
  assert (back : forall u, (u < 2 ^ 128)%N -> Unhex.uuid (Uuid.str u) = u).
  { intros u Hu. unfold Unhex.uuid. rewrite digits_str, value_hex_fixed.
    change (16 ^ N.of_nat 32)%N with (2 ^ 128)%N.
    rewrite N.mod_small by exact Hu. lia. }
  intros Ha. split; [now apply back|]. split; [apply str_length|].
  intros b Hb E.
  assert (E' : Uuid.str a = Uuid.str b) by (exact (string_app_inv_head _ _ _ E)).
  rewrite <- (back a Ha), <- (back b Hb). now rewrite E'.
Qed.

Lemma identifier_strings_round_trip_witness :
  Unhex.uuid (Uuid.str Demo.cid) = Demo.cid /\
  Uuid.str Demo.cid = "00000000-0000-0000-0000-000000000064".
Proof.
  split; [|reflexivity].
  assert (H : (Demo.cid < 2 ^ 128)%N) by reflexivity.
  destruct (identifier_strings_round_trip Demo.cid H) as [Hback _]. exact Hback.
Defined.

(* ================================================================== *)
(** * Podcast URLs *)

Lemma lower_append a b : PyStr.lower (a ++ b) = PyStr.lower a ++ PyStr.lower b.
Proof. induction a as [|c a IH]; cbn; [reflexivity | now rewrite IH]. Qed.

(** X20.  The podcast test ignores case: a URL outside the YouTube pattern
    whose path ends in [.mp3] in any mix of upper and lower case ([.MP3],
    [.Mp3], ...) is a podcast, answered with the placeholder transcript and
    without any request being sent. *)
Theorem podcast_suffix_in_any_case w u st path stem suffix :
  ~ mentions_youtube u ->
  urlparse_path w u = inr path ->
  path = stem ++ suffix ->
  PyStr.lower suffix = ".mp3" ->
  process_media w u st
  = (Ok (Media.mk "podcast" ("Placeholder: Podcast transcript for " ++ u)), st).
Proof.
  intros Hno Hpath -> Hsuffix.
  assert (Hy : is_youtube_url u = false).
  { destruct (is_youtube_url u) eqn:E; [|reflexivity].
    apply is_youtube_url_iff in E. contradiction. }
  assert (Hmp3 : PyStr.endswith ".mp3" (PyStr.lower (stem ++ suffix)) = true).
  { apply endswith_iff. exists (PyStr.lower stem). now rewrite lower_append, Hsuffix. }
  rewrite process_media_run. unfold media_result. rewrite Hy, Hpath, Hmp3.
  cbn [fst snd]. destruct st; reflexivity.
Qed.

Lemma podcast_suffix_in_any_case_witness :
  process_media
    (mkWorld (getenv_DATABASE_URL Demo.world) (create_pool Demo.world) None
       (db_fault Demo.world) (now Demo.world) (uuid4_at Demo.world)
       (requests_get_text Demo.world) (fun _ => inr "/shows/Episode1.MP3")
       (llm_analyze Demo.world) (llm_continue Demo.world))
    "https://cdn.example.com/shows/Episode1.MP3" Demo.empty
  = (Ok (Media.mk "podcast"
           "Placeholder: Podcast transcript for https://cdn.example.com/shows/Episode1.MP3"),
     Demo.empty).
Proof.
  apply (podcast_suffix_in_any_case _ _ _ "/shows/Episode1.MP3" "/shows/Episode1" ".MP3");
    try reflexivity.
  intros Hy. apply is_youtube_url_iff in Hy. vm_compute in Hy. discriminate Hy.
Defined.
